(** * pdfanalyzer: spans, fragments, paragraphs

    A shallow embedding of [src/pdfanalyzer/__init__.py] and the
    verification of its documented behaviour.

    Conventions of the embedding:
    - a Python [int] is a [Z]; a Python [str] is a [string] (its UTF-8
      bytes: equality, concatenation and literal prefixes agree with the
      code-point view);
    - a Python [float] is a [spec_float] of the IEEE 754 model of the
      standard library, compared with [SFeqb] (so a NaN differs from
      itself and the two zeros are equal); the binary64 values are
      those with [valid_binary 53 1024], and the theorems hold for
      every [spec_float];
    - the optional [text] of a fragment is an [option string], [None]
      being Python's [None];
    - a raised exception is the left injection of a sum;
    - [self._fragments] is the state: a list whose positions stand for
      the fragment objects, so that a slice of it is a list of
      positions when the loop body assigns to the objects. *)

From Stdlib Require Import ZArith Floats.SpecFloat.
From stdpp Require Import base list strings.

Open Scope string_scope.
Open Scope list_scope.
Open Scope Z_scope.

(** ** Python values *)

Inductive exn : Type :=
| IndexError.

Definition result (A : Type) : Type := (exn + A)%type.

Definition raise {A : Type} (e : exn) : result A := inl e.
Definition ok {A : Type} (a : A) : result A := inr a.

Definition rbind {A B : Type} (m : result A) (k : A -> result B) : result B :=
  match m with
  | inl e => inl e
  | inr a => k a
  end.

Notation "x <-! m ; k" := (rbind m (fun x => k))
  (at level 100, m at next level, right associativity).

(** [float.__eq__] and [float.__ne__]. *)
Definition float_eq (a b : spec_float) : bool := SFeqb a b.
Definition float_ne (a b : spec_float) : bool := negb (SFeqb a b).

(** A slice index [i] of a sequence of length [len], as
    [PySlice_AdjustIndices] clips it for a step of one. *)
Definition adjust_index (len i : Z) : Z :=
  if i <? 0 then Z.max (i + len) 0 else Z.min i len.

(** The positions [lo, hi) selected by [l[start:stop]]; [stop = None]
    is the omitted bound. *)
Definition slice_bounds (len : nat) (start : Z) (stop : option Z) : nat * nat :=
  let lo := adjust_index (Z.of_nat len) start in
  let hi := match stop with
            | None => Z.of_nat len
            | Some e => adjust_index (Z.of_nat len) e
            end in
  (Z.to_nat lo, Z.to_nat hi).

(** [l[start:stop]] as a new list of the selected elements. *)
Definition py_slice {A : Type} (l : list A) (start : Z) (stop : option Z) : list A :=
  let '(lo, hi) := slice_bounds (length l) start stop in
  take (hi - lo)%nat (drop lo l).

(** [l[start:stop]] as the list of the selected positions. *)
Definition py_slice_refs (len : nat) (start : Z) (stop : option Z) : list nat :=
  let '(lo, hi) := slice_bounds len start stop in
  seq lo (hi - lo)%nat.

(** The position read by [l[i]], negative indices counting from the end. *)
Definition index_position (len : nat) (i : Z) : result nat :=
  let j := if i <? 0 then i + Z.of_nat len else i in
  if (j <? 0) || (Z.of_nat len <=? j) then raise IndexError
  else ok (Z.to_nat j).

(** [l[i]]. *)
Definition py_index {A : Type} (l : list A) (i : Z) : result A :=
  p <-! index_position (length l) i;
  match l !! p with
  | Some a => ok a
  | None => raise IndexError
  end.

(** [sep.join(parts)]. *)
Definition str_join (sep : string) (parts : list string) : string :=
  String.concat sep parts.

(** ** The data classes *)

Module Span.
Record t : Type := mk {
  font_size : spec_float;
  font_family : string;
  text_color : Z;
  text : string
}.

(** [Span.has_equal_metadata]: [and] evaluates left to right. *)
Definition has_equal_metadata (self other : t) : bool :=
  float_eq (font_size self) (font_size other)
  && String.eqb (font_family self) (font_family other)
  && Z.eqb (text_color self) (text_color other).
End Span.

Module Fragment.
Record t : Type := mk {
  index : Z;
  spans : list Span.t;
  font_size : spec_float;
  font_family : string;
  text_color : Z;
  text : option string
}.

(** The assignment [fragment.text = s]. *)
Definition set_text (self : t) (s : string) : t :=
  mk (index self) (spans self) (font_size self) (font_family self)
     (text_color self) (Some s).

(** [Fragment.to_string]. *)
Definition to_string (self : t) (join_str : string) : string :=
  str_join join_str (map Span.text (spans self)).
End Fragment.

(** ** [PDFAnalyzer.convert_to_fragments] *)

(** The local variables of the loop. *)
Record builder : Type := mk_builder {
  b_fragments : list Fragment.t;
  b_fragment : list Span.t;
  b_index : Z;
  b_previous : Span.t
}.

(** [Fragment(index, fragment.copy(), previous.font_size,
    previous.font_family, previous.text_color)]. *)
Definition close_run (st : builder) : Fragment.t :=
  Fragment.mk (b_index st) (b_fragment st)
    (Span.font_size (b_previous st)) (Span.font_family (b_previous st))
    (Span.text_color (b_previous st)) None.

(** One iteration of [for current in spans[1:]]. *)
Definition builder_step (st : builder) (current : Span.t) : builder :=
  let st1 :=
    if negb (Span.has_equal_metadata current (b_previous st)) then
      mk_builder (b_fragments st ++ [close_run st]) [] (b_index st + 1)
                 (b_previous st)
    else st in
  mk_builder (b_fragments st1) (b_fragment st1 ++ [current]) (b_index st1)
             current.

Definition convert_to_fragments (spans : list Span.t) : result (list Fragment.t) :=
  previous <-! py_index spans 0;
  let st := foldl builder_step (mk_builder [] [previous] 0 previous)
                  (py_slice spans 1 None) in
  ok (b_fragments st ++ [close_run st]).

(** ** [PDFAnalyzer.extract_spans] and the constructor

    The dictionaries of [page.get_text("dict")], with the shape the
    code reads: a block may lack the key ["lines"]. *)

Record raw_span : Type := mk_raw_span {
  raw_size : spec_float;
  raw_font : string;
  raw_color : Z;
  raw_text : string
}.

Record raw_line : Type := mk_raw_line { line_spans : list raw_span }.
Record raw_block : Type := mk_raw_block { block_lines : option (list raw_line) }.
Record raw_page : Type := mk_raw_page { page_blocks : list raw_block }.

Definition span_of_raw (span : raw_span) : Span.t :=
  Span.mk (raw_size span) (raw_font span) (raw_color span) (raw_text span).

Definition extract_spans (pages : list raw_page) : list Span.t :=
  flat_map (fun page =>
    flat_map (fun block =>
      match block_lines block with
      | None => []
      | Some lines =>
          flat_map (fun line => map span_of_raw (line_spans line)) lines
      end) (page_blocks page)) pages.

(** [PDFAnalyzer.__init__], after the pages have been read. *)
Definition init (pages : list raw_page) : result (list Fragment.t) :=
  convert_to_fragments (extract_spans pages).

(** ** [get_fragments] and [get_fragment] *)

Definition get_fragments (frs : list Fragment.t) (start : Z) (end_ : option Z)
  : list Fragment.t :=
  py_slice frs start end_.

Definition get_fragment (frs : list Fragment.t) (index : Z) : result Fragment.t :=
  py_index frs index.

(** ** [HYPERLINK_PATTERN] and [PDFAnalyzer.join_hyperlinks] *)

(** Consume the literal [lit] at the front of [s]. *)
Fixpoint match_literal (lit s : string) : option string :=
  match lit with
  | EmptyString => Some s
  | String c lit' =>
      match s with
      | EmptyString => None
      | String d s' => if Ascii.eqb c d then match_literal lit' s' else None
      end
  end.

(** An alternation of literals followed by a literal, anchored at the
    start of [s]: the alternatives are tried in order and the matcher
    backtracks to the next one when the continuation fails. *)
Definition match_alt_then (alts : list string) (next s : string) : bool :=
  existsb (fun alt =>
    match match_literal alt s with
    | Some rest =>
        match match_literal next rest with
        | Some _ => true
        | None => false
        end
    | None => false
    end) alts.

(** The truth value of [HYPERLINK_PATTERN.match(s)] for
    [re.compile(r"^(http|https)://")]. *)
Definition HYPERLINK_PATTERN_match (s : string) : bool :=
  match_alt_then ["http"; "https"] "://" s.

(** The body of the loop of [join_hyperlinks] on one fragment object:
    the new value of the object, or the exception of [spans[0]]. *)
Definition join_hyperlinks_body (fragment : Fragment.t) : result Fragment.t :=
  if Fragment.text_color fragment =? 1544191 then
    first <-! py_index (Fragment.spans fragment) 0;
    if HYPERLINK_PATTERN_match (Span.text first) then
      ok (Fragment.set_text fragment (Fragment.to_string fragment ""))
    else ok fragment
  else ok fragment.

(** The loop over the objects of the slice, given by their positions in
    [self._fragments]; an exception leaves the earlier assignments in
    place. A position outside the list cannot come from a slice. *)
Fixpoint join_hyperlinks_loop (refs : list nat) (frs : list Fragment.t)
  : result unit * list Fragment.t :=
  match refs with
  | [] => (ok tt, frs)
  | p :: refs' =>
      match frs !! p with
      | None => (raise IndexError, frs)
      | Some fragment =>
          match join_hyperlinks_body fragment with
          | inl e => (inl e, frs)
          | inr fragment' => join_hyperlinks_loop refs' (<[p := fragment']> frs)
          end
      end
  end.

Definition join_hyperlinks (frs : list Fragment.t) (start : Z) (end_ : option Z)
  : result unit * list Fragment.t :=
  join_hyperlinks_loop (py_slice_refs (length frs) start end_) frs.

(** ** [PDFAnalyzer.get_paragraph] *)

(** [fragment.text or fragment.to_string()]: [None] and the empty
    string are both false. *)
Definition text_or_to_string (fragment : Fragment.t) : string :=
  match Fragment.text fragment with
  | None => Fragment.to_string fragment " "
  | Some s => if String.eqb s "" then Fragment.to_string fragment " " else s
  end.

(** The [for] loop with its [break], on the fragments still to visit. *)
Fixpoint paragraph_loop (rest : list Fragment.t) (previous : Fragment.t)
    (paragraph : list string) (break_index : Z) : list string * Z :=
  match rest with
  | [] => (paragraph, break_index)
  | current :: rest' =>
      if float_ne (Fragment.font_size current) (Fragment.font_size previous)
      then (paragraph, Fragment.index current)
      else paragraph_loop rest' current
             (paragraph ++ [text_or_to_string current]) break_index
  end.

Definition get_paragraph (frs : list Fragment.t) (start : Z) (end_ : option Z)
  : result (string * Z) :=
  previous <-! py_index frs start;
  let '(paragraph, break_index) :=
    paragraph_loop (py_slice frs (start + 1) end_) previous
      [text_or_to_string previous] (Fragment.index previous) in
  ok (str_join "" paragraph, break_index).

(** ** [PDFAnalyzer.get_index_by_text] *)

(** [for i, span in enumerate(spans)], counting from [i]. *)
Fixpoint find_span (spans : list Span.t) (text : string) (i : Z) : option Z :=
  match spans with
  | [] => None
  | span :: spans' =>
      if String.eqb (Span.text span) text then Some i
      else find_span spans' text (i + 1)
  end.

Fixpoint find_fragment (frs : list Fragment.t) (text : string) : Z * Z :=
  match frs with
  | [] => (-1, -1)
  | fragment :: frs' =>
      match find_span (Fragment.spans fragment) text 0 with
      | Some i => (Fragment.index fragment, i)
      | None => find_fragment frs' text
      end
  end.

Definition get_index_by_text (frs : list Fragment.t) (text : string)
    (start : Z) (end_ : option Z) : Z * Z :=
  find_fragment (py_slice frs start end_) text.

(** ** The public operations as calls on an analyzer *)

Inductive operation : Type :=
| GetFragments (start : Z) (end_ : option Z)
| GetFragment (index : Z)
| ExtractSpans (pages : list raw_page)
| ConvertToFragments (spans : list Span.t)
| JoinHyperlinks (start : Z) (end_ : option Z)
| GetParagraph (start : Z) (end_ : option Z)
| GetIndexByText (text : string) (start : Z) (end_ : option Z).

Inductive value : Type :=
| VNone
| VFragment (f : Fragment.t)
| VFragments (l : list Fragment.t)
| VSpans (l : list Span.t)
| VParagraph (paragraph : string) (break_index : Z)
| VIndex (fragment_index span_index : Z).

Definition rmap {A B : Type} (f : A -> B) (m : result A) : result B :=
  x <-! m; ok (f x).

(** The returned value (or exception) of a call and [self._fragments]
    after it. *)
Definition call (op : operation) (frs : list Fragment.t)
  : result value * list Fragment.t :=
  match op with
  | GetFragments start end_ => (ok (VFragments (get_fragments frs start end_)), frs)
  | GetFragment index => (rmap VFragment (get_fragment frs index), frs)
  | ExtractSpans pages => (ok (VSpans (extract_spans pages)), frs)
  | ConvertToFragments spans => (rmap VFragments (convert_to_fragments spans), frs)
  | JoinHyperlinks start end_ =>
      let '(r, frs') := join_hyperlinks frs start end_ in
      (rmap (fun _ => VNone) r, frs')
  | GetParagraph start end_ =>
      (rmap (fun '(p, b) => VParagraph p b) (get_paragraph frs start end_), frs)
  | GetIndexByText text start end_ =>
      (ok (let '(fi, si) := get_index_by_text frs text start end_ in VIndex fi si),
       frs)
  end.

(** ** Sample documents *)

(** The sizes 12.0 and 14.0 as binary64 values. *)
Definition size12 : spec_float := S754_finite false 6755399441055744 (-49).
Definition size14 : spec_float := S754_finite false 7881299347898368 (-49).

Definition scenario_spans : list Span.t :=
  [ Span.mk size12 "Arial" 0 "Hello";
    Span.mk size12 "Arial" 0 " World";
    Span.mk size14 "Arial" 0 "Title" ].

(** Fragments of the hyperlink colour: a URL split over two spans and
    a text that is no URL. *)
Definition link_spans : list Span.t :=
  [ Span.mk size12 "Arial" 1544191 "https://exam";
    Span.mk size12 "Arial" 1544191 "ple.com";
    Span.mk size14 "Arial" 1544191 "not a link" ].

Definition link_fragments : list Fragment.t :=
  [ Fragment.mk 0 [ Span.mk size12 "Arial" 1544191 "https://exam";
                    Span.mk size12 "Arial" 1544191 "ple.com" ]
                  size12 "Arial" 1544191 None;
    Fragment.mk 1 [ Span.mk size14 "Arial" 1544191 "not a link" ]
                  size14 "Arial" 1544191 None ].

(** Fragments of sizes 12, 12, 14, 12. *)
Definition paragraph_fragments : list Fragment.t :=
  [ Fragment.mk 0 [ Span.mk size12 "Arial" 0 "Intro" ] size12 "Arial" 0 None;
    Fragment.mk 1 [ Span.mk size12 "Arial" 255 "duc"; Span.mk size12 "Arial" 255 "tion" ]
                  size12 "Arial" 255 None;
    Fragment.mk 2 [ Span.mk size14 "Arial" 0 "Title" ] size14 "Arial" 0 None;
    Fragment.mk 3 [ Span.mk size12 "Arial" 0 "Body" ] size12 "Arial" 0 None ].

(** Two fragments of one size, of different colours. *)
Definition uniform_spans : list Span.t :=
  [ Span.mk size12 "Arial" 0 "Hello"; Span.mk size12 "Arial" 255 " World" ].

Definition uniform_fragments : list Fragment.t :=
  [ Fragment.mk 0 [ Span.mk size12 "Arial" 0 "Hello" ] size12 "Arial" 0 None;
    Fragment.mk 1 [ Span.mk size12 "Arial" 255 " World" ] size12 "Arial" 255 None ].

(** A fragment whose override text is the empty string. *)
Definition empty_override : Fragment.t :=
  Fragment.mk 0 [ Span.mk size12 "Arial" 0 "a"; Span.mk size12 "Arial" 0 "b" ]
    size12 "Arial" 0 (Some "").

(** * Vocabulary of the specification *)

(** The spans of a run agree on their metadata. *)
Definition uniform (run : list Span.t) : Prop :=
  forall (i j : nat) (s t : Span.t),
    run !! i = Some s -> run !! j = Some t -> i <> j ->
    Span.has_equal_metadata s t = true.

(** No span of [r1] has the metadata of a span of [r2]. *)
Definition apart (r1 r2 : list Span.t) : Prop :=
  forall s t : Span.t, s ∈ r1 -> t ∈ r2 -> Span.has_equal_metadata s t = false.

(** The fragment at position [k] of a built list. *)
Record fragment_ok (k : nat) (f : Fragment.t) : Prop := {
  ok_index : Fragment.index f = Z.of_nat k;
  ok_text : Fragment.text f = None;
  ok_uniform : uniform (Fragment.spans f);
  ok_metadata : exists p : Span.t,
    last (Fragment.spans f) = Some p
    /\ Fragment.font_size f = Span.font_size p
    /\ Fragment.font_family f = Span.font_family p
    /\ Fragment.text_color f = Span.text_color p
}.

Record fragments_ok (fs : list Fragment.t) : Prop := {
  ok_each : forall (k : nat) (f : Fragment.t), fs !! k = Some f -> fragment_ok k f;
  ok_apart : forall (k : nat) (f g : Fragment.t),
    fs !! k = Some f -> fs !! S k = Some g ->
    apart (Fragment.spans f) (Fragment.spans g)
}.

(** What the builder would return if the loop ended in state [st]. *)
Definition pending (st : builder) : list Fragment.t :=
  b_fragments st ++ [close_run st].

Record builder_inv (st : builder) (seen : list Span.t) : Prop := {
  inv_concat : concat (map Fragment.spans (pending st)) = seen;
  inv_index : b_index st = Z.of_nat (length (b_fragments st));
  inv_previous : last (b_fragment st) = Some (b_previous st);
  inv_ok : fragments_ok (pending st)
}.

(** [s] begins with [prefix]. *)
Definition starts_with (prefix s : string) : Prop :=
  exists tail : string, s = prefix +:+ tail.

(** A fragment of the hyperlink colour whose first span begins like a URL. *)
Definition is_hyperlink (f : Fragment.t) : Prop :=
  Fragment.text_color f = 1544191
  /\ exists (first : Span.t) (rest : list Span.t),
       Fragment.spans f = first :: rest
       /\ (starts_with "http://" (Span.text first)
           \/ starts_with "https://" (Span.text first)).

(** The texts of the spans of a fragment, one after the other. *)
Definition joined_text (f : Fragment.t) : string :=
  foldr String.append "" (map Span.text (Fragment.spans f)).

(** Position [p] is selected by the slice [start:end_] of a list of
    length [len]. *)
Definition in_slice (len : nat) (start : Z) (end_ : option Z) (p : nat) : Prop :=
  (fst (slice_bounds len start end_) <= p < snd (slice_bounds len start end_))%nat.

(** Two fragments that differ at most in their override text. *)
Definition same_but_text (f f' : Fragment.t) : Prop :=
  Fragment.index f' = Fragment.index f
  /\ Fragment.spans f' = Fragment.spans f
  /\ Fragment.font_size f' = Fragment.font_size f
  /\ Fragment.font_family f' = Fragment.font_family f
  /\ Fragment.text_color f' = Fragment.text_color f.

(** The decision made by the condition of [join_hyperlinks] when it
    raises nothing. *)
Definition hyperlink_fragment (f : Fragment.t) : bool :=
  (Fragment.text_color f =? 1544191)
  && match Fragment.spans f with
     | [] => false
     | first :: _ => HYPERLINK_PATTERN_match (Span.text first)
     end.

(** The value of a fragment object after the body of the loop. *)
Definition merged (f : Fragment.t) : Fragment.t :=
  if hyperlink_fragment f then Fragment.set_text f (Fragment.to_string f "")
  else f.

(** Span [i] of the fragment at position [p] has exactly the text [text]. *)
Definition span_at (frs : list Fragment.t) (p i : nat) (text : string) : Prop :=
  exists (f : Fragment.t) (s : Span.t),
    frs !! p = Some f /\ Fragment.spans f !! i = Some s /\ Span.text s = text.

(** Span [i] of fragment [p] comes before span [j] of fragment [q] in
    the document. *)
Definition before (p i q j : nat) : Prop :=
  (p < q)%nat \/ (p = q /\ (i < j)%nat).


(** Every fragment of [run] but the first has the font size of the one
    before it. *)
Definition size_chain (run : list Fragment.t) : Prop :=
  forall (j : nat) (g' g : Fragment.t),
    run !! j = Some g' -> run !! S j = Some g ->
    float_eq (Fragment.font_size g) (Fragment.font_size g') = true.

(** The fragment without its override text. *)
Definition clear_text (f : Fragment.t) : Fragment.t :=
  Fragment.mk (Fragment.index f) (Fragment.spans f) (Fragment.font_size f)
    (Fragment.font_family f) (Fragment.text_color f) None.

(** Every fragment of the slice [start:end_] has the font size of the
    starting fragment. *)
Definition uniform_range (frs : list Fragment.t) (start : Z) (end_ : option Z)
  : Prop :=
  forall (p : nat) (g f0 : Fragment.t),
    in_slice (length frs) start end_ p ->
    frs !! p = Some g -> frs !! Z.to_nat start = Some f0 ->
    float_eq (Fragment.font_size g) (Fragment.font_size f0) = true.

(** The slice [start:end_] holds at least two fragments. *)
Definition two_in_range (frs : list Fragment.t) (start : Z) (end_ : option Z)
  : Prop :=
  in_slice (length frs) start end_ (S (Z.to_nat start)).

(** The returned break index is the index of the last fragment of the
    slice [start:end_]. *)
Definition break_is_last (frs : list Fragment.t) (start : Z) (end_ : option Z)
  : Prop :=
  exists (paragraph : string) (final : Fragment.t),
    frs !! (snd (slice_bounds (length frs) start end_) - 1)%nat = Some final
    /\ get_paragraph frs start end_ = ok (paragraph, Fragment.index final).

(** What [get_paragraph] reads of a fragment. *)
Definition same_view (f g : Fragment.t) : Prop :=
  Fragment.index f = Fragment.index g
  /\ Fragment.font_size f = Fragment.font_size g
  /\ text_or_to_string f = text_or_to_string g.

(** The number of spans of [rest] whose metadata differs from that of
    the span before them, [previous] coming before the first. *)
Fixpoint changes (previous : Span.t) (rest : list Span.t) : nat :=
  match rest with
  | [] => 0
  | current :: rest' =>
      (if Span.has_equal_metadata current previous then 0 else 1)
      + changes current rest'
  end.

(** The fragment lists an analyzer can hold: the one its constructor
    builds, and the ones the public operations turn it into. *)
Inductive reachable : list Fragment.t -> Prop :=
| reachable_init (pages : list raw_page) (frs : list Fragment.t) :
    init pages = ok frs -> reachable frs
| reachable_call (op : operation) (frs : list Fragment.t) :
    reachable frs -> reachable (call op frs).2.

(** What holds of every fragment of an analyzer: its index is its
    position, it has a span, and its override text is absent or is the
    joined text of a hyperlink. *)
Record fragment_wf (p : nat) (f : Fragment.t) : Prop := {
  wf_index : Fragment.index f = Z.of_nat p;
  wf_spans : Fragment.spans f <> [];
  wf_text : Fragment.text f = None
            \/ (is_hyperlink f /\ Fragment.text f = Some (joined_text f))
}.

Definition analyzer_wf (frs : list Fragment.t) : Prop :=
  frs <> []
  /\ forall (p : nat) (f : Fragment.t), frs !! p = Some f -> fragment_wf p f.

(** A page of one image block, which has no lines. *)
Definition image_page : raw_page := mk_raw_page [ mk_raw_block None ].

(** A page with the spans of [link_spans] on one line. *)
Definition link_page : raw_page :=
  mk_raw_page
    [ mk_raw_block None;
      mk_raw_block (Some
        [ mk_raw_line
            [ mk_raw_span size12 "Arial" 1544191 "https://exam";
              mk_raw_span size12 "Arial" 1544191 "ple.com";
              mk_raw_span size14 "Arial" 1544191 "not a link" ] ]) ].



(** * Verification *)

(** ** Indexing and slicing *)

Section Slicing.

Context {A : Type}.

Lemma slice_bounds_le (len : nat) (start : Z) (stop : option Z) :
  (fst (slice_bounds len start stop) <= len)%nat
  /\ (snd (slice_bounds len start stop) <= len)%nat.
Proof.
  unfold slice_bounds, adjust_index; simpl.
  destruct stop as [e|]; repeat case_match; lia.
Qed.

Lemma slice_bounds_nonneg (len : nat) (start : Z) (stop : option Z) :
  0 <= start ->
  fst (slice_bounds len start stop) = Nat.min (Z.to_nat start) len.
Proof.
  intros Hs. unfold slice_bounds, adjust_index; simpl.
  case_match; lia.
Qed.

Lemma index_position_nonneg (len : nat) (i : Z) :
  0 <= i < Z.of_nat len -> index_position len i = ok (Z.to_nat i).
Proof.
  intros Hi. unfold index_position.
  destruct (i <? 0) eqn:E1; [lia|].
  destruct (Z.of_nat len <=? i) eqn:E2; [lia|].
  destruct (i <? 0) eqn:E3; [lia|]. reflexivity.
Qed.

Lemma py_index_nonneg (l : list A) (i : Z) (a : A) :
  0 <= i -> l !! Z.to_nat i = Some a -> py_index l i = ok a.
Proof.
  intros Hi Hl. unfold py_index.
  apply lookup_lt_Some in Hl as Hlt.
  rewrite index_position_nonneg by lia. simpl. by rewrite Hl.
Qed.

Lemma py_index_nil (i : Z) : py_index (@nil A) i = raise IndexError.
Proof.
  unfold py_index, index_position.
  replace (((if i <? 0 then i + Z.of_nat (length (@nil A)) else i) <? 0)
           || (Z.of_nat (length (@nil A)) <=? (if i <? 0 then i + Z.of_nat (length (@nil A)) else i)))
    with true; [reflexivity|].
  symmetry. simpl length. apply orb_true_iff.
  destruct (Z.ltb_spec i 0).
  - left. apply Z.ltb_lt. lia.
  - right. apply Z.leb_le. lia.
Qed.

Lemma py_index_head (a : A) (l : list A) : py_index (a :: l) 0 = ok a.
Proof. by apply py_index_nonneg. Qed.

Lemma py_slice_tail (a : A) (l : list A) :
  py_slice (a :: l) 1 None = l.
Proof.
  unfold py_slice, slice_bounds, adjust_index.
  change (1 <? 0) with false; cbv iota.
  replace (Z.to_nat (Z.min 1 (Z.of_nat (length (a :: l))))) with 1%nat
    by (simpl length; lia).
  rewrite Nat2Z.id. simpl. rewrite Nat.sub_0_r. apply firstn_all.
Qed.

(** The slice is the sub-list between its bounds. *)
Lemma py_slice_lookup (l : list A) (start : Z) (stop : option Z) (i : nat) :
  py_slice l start stop !! i =
  let '(lo, hi) := slice_bounds (length l) start stop in
  if decide (lo + i < hi)%nat then l !! (lo + i)%nat else None.
Proof.
  unfold py_slice. destruct (slice_bounds (length l) start stop) as [lo hi].
  rewrite lookup_take, lookup_drop.
  repeat case_decide; try lia; reflexivity.
Qed.

End Slicing.

(** ** Equality of font sizes and of metadata

    Equality of floats is symmetric and transitive, not reflexive. *)

Lemma float_eq_spec (a b : spec_float) :
  float_eq a b = true <->
  match a, b with
  | S754_zero _, S754_zero _ => True
  | S754_infinity s1, S754_infinity s2 => s1 = s2
  | S754_finite s1 m1 e1, S754_finite s2 m2 e2 => s1 = s2 /\ m1 = m2 /\ e1 = e2
  | _, _ => False
  end.
Proof.
  unfold float_eq, SFeqb, SFcompare.
  destruct a as [s1|s1| |s1 m1 e1], b as [s2|s2| |s2 m2 e2];
    try destruct s1; try destruct s2; try (split; (done || tauto)).
  all: try (split; [done | intros (? & _); done]).
  all: destruct (Z.compare_spec e1 e2) as [->| |];
      [|split; [done | intros (_ & _ & ?); lia]..].
  all: change (Pos.compare_cont Eq m1 m2) with (m1 ?= m2)%positive.
  all: destruct (Pos.compare_spec m1 m2) as [->| |]; simpl;
      [done | split; [done | intros (_ & ? & _); lia]..].
Qed.

Lemma float_eq_sym (a b : spec_float) : float_eq a b = true -> float_eq b a = true.
Proof.
  rewrite !float_eq_spec. destruct a, b; intuition congruence.
Qed.

Lemma float_eq_trans (a b c : spec_float) :
  float_eq a b = true -> float_eq b c = true -> float_eq a c = true.
Proof.
  rewrite !float_eq_spec. destruct a, b, c; intuition congruence.
Qed.

Lemma float_ne_false (a b : spec_float) :
  float_ne a b = false <-> float_eq a b = true.
Proof. unfold float_ne, float_eq. by destruct (SFeqb a b). Qed.

Lemma has_equal_metadata_spec (s t : Span.t) :
  Span.has_equal_metadata s t = true <->
  float_eq (Span.font_size s) (Span.font_size t) = true
  /\ Span.font_family s = Span.font_family t
  /\ Span.text_color s = Span.text_color t.
Proof.
  unfold Span.has_equal_metadata.
  rewrite !andb_true_iff, String.eqb_eq, Z.eqb_eq. tauto.
Qed.

Lemma has_equal_metadata_sym (s t : Span.t) :
  Span.has_equal_metadata s t = true -> Span.has_equal_metadata t s = true.
Proof.
  rewrite !has_equal_metadata_spec. intros (H1 & H2 & H3).
  auto using float_eq_sym.
Qed.

Lemma has_equal_metadata_trans (s t u : Span.t) :
  Span.has_equal_metadata s t = true -> Span.has_equal_metadata t u = true ->
  Span.has_equal_metadata s u = true.
Proof.
  rewrite !has_equal_metadata_spec. intros (H1 & H2 & H3) (H4 & H5 & H6).
  split; [eauto using float_eq_trans | split; congruence].
Qed.

Lemma float_eq_refl (a : spec_float) : a <> S754_nan -> float_eq a a = true.
Proof. rewrite float_eq_spec. destruct a; intuition congruence. Qed.

Create HintDb metadata.

#[local] Hint Resolve float_eq_sym float_eq_trans
  has_equal_metadata_sym has_equal_metadata_trans : metadata.

(** ** The fragment builder *)

Lemma last_lookup_length {A : Type} (l : list A) (a : A) :
  last l = Some a -> l !! (length l - 1)%nat = Some a /\ (0 < length l)%nat.
Proof.
  rewrite last_lookup. intros H.
  apply lookup_lt_Some in H as Hlt.
  replace (length l - 1)%nat with (Nat.pred (length l)) by lia.
  split; [done | lia].
Qed.

(** Every span of a run is the last one or agrees with it. *)
Lemma uniform_last (run : list Span.t) (p s : Span.t) :
  uniform run -> last run = Some p -> s ∈ run ->
  s = p \/ (Span.has_equal_metadata s p = true /\ Span.has_equal_metadata p p = true).
Proof.
  intros Hu Hp Hs. apply last_lookup_length in Hp as [Hp Hlen].
  apply list_elem_of_lookup in Hs as [i Hi].
  destruct (decide (i = (length run - 1)%nat)) as [->|Hne].
  - left. congruence.
  - right. assert (Span.has_equal_metadata s p = true) as Hsp by eauto.
    split; [done|].
    eauto with metadata.
Qed.

Lemma uniform_snoc (run : list Span.t) (p c : Span.t) :
  uniform run -> last run = Some p -> Span.has_equal_metadata c p = true -> uniform (run ++ [c]).
Proof.
  intros Hu Hp Hc.
  assert (forall s, s ∈ run -> Span.has_equal_metadata s c = true) as Hall.
  { intros s Hs. destruct (uniform_last run p s Hu Hp Hs) as [->|[Hsp _]];
      eauto with metadata. }
  intros i j s t Hi Hj Hne.
  apply lookup_app_Some in Hi as [Hi|[Hi1 Hi2]];
    apply lookup_app_Some in Hj as [Hj|[Hj1 Hj2]].
  - eauto.
  - apply list_lookup_singleton_Some in Hj2 as [_ <-].
    apply Hall. eapply list_elem_of_lookup_2; eauto.
  - apply list_lookup_singleton_Some in Hi2 as [_ <-].
    apply has_equal_metadata_sym, Hall. eapply list_elem_of_lookup_2; eauto.
  - apply list_lookup_singleton_Some in Hi2 as [Hi2 _].
    apply list_lookup_singleton_Some in Hj2 as [Hj2 _]. lia.
Qed.

Lemma uniform_singleton (c : Span.t) : uniform [c].
Proof.
  intros i j s t Hi Hj Hne.
  apply list_lookup_singleton_Some in Hi as [-> _].
  apply list_lookup_singleton_Some in Hj as [-> _]. done.
Qed.

Lemma apart_snoc (r run : list Span.t) (p c : Span.t) :
  apart r run -> last run = Some p -> Span.has_equal_metadata c p = true -> apart r (run ++ [c]).
Proof.
  intros Ha Hp Hc s t Hs Ht.
  apply elem_of_app in Ht as [Ht|Ht]; [eauto|].
  apply list_elem_of_singleton in Ht as ->.
  destruct (Span.has_equal_metadata s c) eqn:E; [|done].
  assert (p ∈ run) as Hin.
  { apply last_lookup_length in Hp as [Hp _].
    eapply list_elem_of_lookup_2; eauto. }
  rewrite <- (Ha s p Hs Hin).
  symmetry. eauto using has_equal_metadata_trans.
Qed.

Lemma apart_new (run : list Span.t) (p c : Span.t) :
  uniform run -> last run = Some p -> Span.has_equal_metadata c p = false -> apart run [c].
Proof.
  intros Hu Hp Hc s t Hs Ht.
  apply list_elem_of_singleton in Ht as ->.
  destruct (Span.has_equal_metadata s c) eqn:E; [|done].
  rewrite <- Hc. symmetry.
  destruct (uniform_last run p s Hu Hp Hs) as [->|[Hsp _]];
    eauto with metadata.
Qed.

Lemma fragments_ok_init (fs : list Fragment.t) (f : Fragment.t) :
  fragments_ok (fs ++ [f]) -> fragments_ok fs.
Proof.
  intros [He Ha]. split.
  - intros k g Hk. apply He. by apply lookup_app_l_Some.
  - intros k g h Hg Hh. eapply Ha; by apply lookup_app_l_Some.
Qed.

Lemma fragments_ok_snoc (fs : list Fragment.t) (g : Fragment.t) :
  fragments_ok fs -> fragment_ok (length fs) g ->
  (forall f, last fs = Some f -> apart (Fragment.spans f) (Fragment.spans g)) ->
  fragments_ok (fs ++ [g]).
Proof.
  intros [He Ha] Hg Hlast. split.
  - intros k f Hk. apply lookup_app_Some in Hk as [Hk|[Hk1 Hk2]]; [eauto|].
    apply list_lookup_singleton_Some in Hk2 as [Hk2 <-].
    by replace k with (length fs) by lia.
  - intros k f h Hf Hh.
    apply lookup_app_Some in Hh as [Hh|[Hh1 Hh2]].
    + apply lookup_lt_Some in Hh as Hlt.
      rewrite lookup_app_l in Hf by lia. eauto.
    + apply list_lookup_singleton_Some in Hh2 as [Hh2 <-].
      assert (k = (length fs - 1)%nat /\ (0 < length fs)%nat) as [-> Hpos] by lia.
      rewrite lookup_app_l in Hf by lia.
      apply Hlast. rewrite last_lookup.
      by replace (Nat.pred (length fs)) with (length fs - 1)%nat by lia.
Qed.

Lemma builder_step_inv (st : builder) (seen : list Span.t) (current : Span.t) :
  builder_inv st seen -> builder_inv (builder_step st current) (seen ++ [current]).
Proof.
  intros [Hc Hi Hp Hok]. unfold builder_step.
  assert (fragment_ok (length (b_fragments st)) (close_run st)) as Hrun.
  { apply (ok_each _ Hok). unfold pending.
    rewrite lookup_app_r by lia. by rewrite Nat.sub_diag. }
  destruct (Span.has_equal_metadata current (b_previous st)) eqn:E; simpl.
  - (* the run goes on *)
    split; simpl.
    + unfold pending in *; simpl in *.
      rewrite map_app, concat_app in *; simpl in *.
      rewrite app_nil_r in *. rewrite <- Hc. by rewrite !app_assoc.
    + done.
    + by rewrite last_snoc.
    + unfold pending; simpl.
      apply fragments_ok_snoc.
      * eapply fragments_ok_init, Hok.
      * destruct Hrun as [H1 H2 H3 H4]. split; simpl; [done | done | | ].
        -- eapply uniform_snoc; eauto.
        -- exists current. by rewrite last_snoc.
      * intros f Hf; simpl.
        eapply apart_snoc; eauto.
        apply last_lookup_length in Hf as [Hf Hlen].
        apply (ok_apart _ Hok (length (b_fragments st) - 1)%nat f (close_run st)).
        -- unfold pending. by rewrite lookup_app_l by lia.
        -- unfold pending. rewrite lookup_app_r by lia.
           by replace (S (length (b_fragments st) - 1) - length (b_fragments st))%nat
             with 0%nat by lia.
  - (* the run is closed and a new one starts *)
    split; simpl.
    + unfold pending in *; simpl in *.
      rewrite !map_app, !concat_app in *; simpl in *.
      rewrite app_nil_r in *. by rewrite <- Hc.
    + rewrite length_app; simpl. lia.
    + done.
    + unfold pending; simpl. fold (pending st).
      apply fragments_ok_snoc; [done | | ].
      * unfold pending. rewrite length_app; simpl.
        split; simpl; [lia | done | apply uniform_singleton | by exists current].
      * intros f Hf. unfold pending in Hf. rewrite last_snoc in Hf.
        injection Hf as <-. simpl.
        destruct Hrun as [_ _ H3 _]. simpl in H3.
        eapply apart_new; eauto.
Qed.

Lemma builder_foldl_inv (rest : list Span.t) :
  forall (st : builder) (seen : list Span.t),
    builder_inv st seen ->
    builder_inv (foldl builder_step st rest) (seen ++ rest).
Proof.
  induction rest as [|current rest IH]; intros st seen Hinv; simpl.
  - by rewrite app_nil_r.
  - replace (seen ++ current :: rest) with ((seen ++ [current]) ++ rest)
      by (by rewrite <- app_assoc).
    by apply IH, builder_step_inv.
Qed.

Lemma builder_init_inv (first : Span.t) :
  builder_inv (mk_builder [] [first] 0 first) [first].
Proof.
  split; simpl; try done.
  split.
  - intros k f Hk. apply list_lookup_singleton_Some in Hk as [-> <-].
    split; simpl; [done | done | apply uniform_singleton | by exists first].
  - intros k f g _ Hg. by destruct k.
Qed.

(** The builder returns on every non-empty list, with a well-formed
    partition of its argument. *)
Lemma convert_to_fragments_cons (first : Span.t) (rest : list Span.t) :
  exists frs : list Fragment.t,
    convert_to_fragments (first :: rest) = ok frs
    /\ concat (map Fragment.spans frs) = first :: rest
    /\ fragments_ok frs.
Proof.
  unfold convert_to_fragments.
  rewrite py_index_head, py_slice_tail; simpl.
  pose proof (builder_foldl_inv rest _ _ (builder_init_inv first)) as [Hc _ _ Hok].
  eexists; split; [reflexivity|]. by split.
Qed.


(** ** Claims on the fragment builder *)

(** C8: on a span list of length zero [convert_to_fragments] produces
    no fragment list: it raises the [IndexError] of [spans[0]]. *)
Theorem convert_to_fragments_empty (spans : list Span.t) :
  length spans = 0%nat ->
  convert_to_fragments spans = raise IndexError
  /\ forall frs : list Fragment.t, convert_to_fragments spans <> ok frs.
Proof.
  intros Hlen. apply length_zero_iff_nil in Hlen as ->.
  unfold convert_to_fragments. rewrite py_index_nil. split; [reflexivity|].
  intros frs; discriminate.
Qed.

Lemma convert_to_fragments_empty_witness :
  length (@nil Span.t) = 0%nat
  /\ convert_to_fragments [] = raise IndexError
  /\ forall frs : list Fragment.t, convert_to_fragments [] <> ok frs.
Proof.
  split; [reflexivity|]. apply (convert_to_fragments_empty []). reflexivity.
Defined.

(** C2: on a non-empty span list [convert_to_fragments] returns
    fragments whose span lists, concatenated in order, are the input:
    no span is lost, duplicated or reordered. *)
Theorem convert_to_fragments_concat (spans : list Span.t) :
  spans <> [] ->
  exists frs : list Fragment.t,
    convert_to_fragments spans = ok frs
    /\ concat (map Fragment.spans frs) = spans.
Proof.
  intros Hne. destruct spans as [|first rest]; [done|].
  destruct (convert_to_fragments_cons first rest) as (frs & Hfrs & Hc & _).
  by exists frs.
Qed.

Lemma convert_to_fragments_concat_witness :
  scenario_spans <> []
  /\ exists frs : list Fragment.t,
       convert_to_fragments scenario_spans = ok frs
       /\ concat (map Fragment.spans frs) = scenario_spans.
Proof.
  split; [discriminate|].
  apply (convert_to_fragments_concat scenario_spans). discriminate.
Defined.

(** C3: in the fragments built from a non-empty span list, two spans
    at different places of one fragment have equal metadata (and a
    span has its own metadata unless its font size is a NaN), a span
    of a fragment and a span of the next fragment have unequal
    metadata (in both orders of comparison), and the fragment at
    position [k] has index [k]. *)
Theorem convert_to_fragments_partition (spans : list Span.t) :
  spans <> [] ->
  exists frs : list Fragment.t,
    convert_to_fragments spans = ok frs
    /\ (forall (k i j : nat) (f : Fragment.t) (s t : Span.t),
          frs !! k = Some f ->
          Fragment.spans f !! i = Some s -> Fragment.spans f !! j = Some t ->
          i <> j -> Span.has_equal_metadata s t = true)
    /\ (forall (k i : nat) (f : Fragment.t) (s : Span.t),
          frs !! k = Some f -> Fragment.spans f !! i = Some s ->
          Span.font_size s <> S754_nan -> Span.has_equal_metadata s s = true)
    /\ (forall (k : nat) (f g : Fragment.t) (s t : Span.t),
          frs !! k = Some f -> frs !! S k = Some g ->
          s ∈ Fragment.spans f -> t ∈ Fragment.spans g ->
          Span.has_equal_metadata s t = false
          /\ Span.has_equal_metadata t s = false)
    /\ (forall (k : nat) (f : Fragment.t),
          frs !! k = Some f -> Fragment.index f = Z.of_nat k).
Proof.
  intros Hne. destruct spans as [|first rest]; [done|].
  destruct (convert_to_fragments_cons first rest) as (frs & Hfrs & _ & [He Ha]).
  exists frs. split; [done|]. split; [|split; [|split]].
  - intros k i j f s t Hf Hs Ht Hij.
    by apply (ok_uniform _ _ (He k f Hf) i j).
  - intros k i f s _ _ Hnan. apply has_equal_metadata_spec.
    split; [by apply float_eq_refl | done].
  - intros k f g s t Hf Hg Hs Ht.
    pose proof (Ha k f g Hf Hg s t Hs Ht) as Hst. split; [done|].
    destruct (Span.has_equal_metadata t s) eqn:E; [|done].
    apply has_equal_metadata_sym in E. congruence.
  - intros k f Hf. apply (ok_index _ _ (He k f Hf)).
Qed.

Lemma convert_to_fragments_partition_witness :
  scenario_spans <> []
  /\ exists frs : list Fragment.t,
    convert_to_fragments scenario_spans = ok frs
    /\ (forall (k i j : nat) (f : Fragment.t) (s t : Span.t),
          frs !! k = Some f ->
          Fragment.spans f !! i = Some s -> Fragment.spans f !! j = Some t ->
          i <> j -> Span.has_equal_metadata s t = true)
    /\ (forall (k i : nat) (f : Fragment.t) (s : Span.t),
          frs !! k = Some f -> Fragment.spans f !! i = Some s ->
          Span.font_size s <> S754_nan -> Span.has_equal_metadata s s = true)
    /\ (forall (k : nat) (f g : Fragment.t) (s t : Span.t),
          frs !! k = Some f -> frs !! S k = Some g ->
          s ∈ Fragment.spans f -> t ∈ Fragment.spans g ->
          Span.has_equal_metadata s t = false
          /\ Span.has_equal_metadata t s = false)
    /\ (forall (k : nat) (f : Fragment.t),
          frs !! k = Some f -> Fragment.index f = Z.of_nat k).
Proof.
  split; [discriminate|].
  apply (convert_to_fragments_partition scenario_spans). discriminate.
Defined.

(** ** The hyperlink pattern *)

Lemma match_literal_spec (lit s rest : string) :
  match_literal lit s = Some rest <-> s = lit +:+ rest.
Proof.
  revert s. induction lit as [|c lit IH]; intros s; simpl.
  - change ("" +:+ rest) with rest. split; congruence.
  - change (String c lit +:+ rest) with (String c (lit +:+ rest)).
    destruct s as [|d s]; [split; discriminate|].
    destruct (Ascii.eqb_spec c d) as [->|Hne].
    + rewrite IH. split; congruence.
    + split; [discriminate | congruence].
Qed.

Lemma string_append_assoc (a b c : string) : (a +:+ b) +:+ c = a +:+ (b +:+ c).
Proof.
  induction a as [|x a IH]; [reflexivity|].
  change ((String x a +:+ b) +:+ c) with (String x ((a +:+ b) +:+ c)).
  change (String x a +:+ b +:+ c) with (String x (a +:+ b +:+ c)).
  by rewrite IH.
Qed.

Lemma match_literal_then (lit next s : string) :
  match match_literal lit s with
  | Some rest => match match_literal next rest with
                 | Some _ => true
                 | None => false
                 end
  | None => false
  end = true <-> starts_with (lit +:+ next) s.
Proof.
  unfold starts_with. split.
  - destruct (match_literal lit s) as [rest|] eqn:E1; [|discriminate].
    destruct (match_literal next rest) as [tail|] eqn:E2; [|discriminate].
    intros _. exists tail.
    apply match_literal_spec in E1 as ->. apply match_literal_spec in E2 as ->.
    by rewrite string_append_assoc.
  - intros [tail ->]. rewrite string_append_assoc.
    rewrite (proj2 (match_literal_spec lit _ (next +:+ tail)) eq_refl).
    by rewrite (proj2 (match_literal_spec next _ tail) eq_refl).
Qed.

(** The pattern accepts the strings that begin with one of the two
    schemes, and no other. *)
Lemma HYPERLINK_PATTERN_match_spec (s : string) :
  HYPERLINK_PATTERN_match s = true <->
  starts_with "http://" s \/ starts_with "https://" s.
Proof.
  unfold HYPERLINK_PATTERN_match, match_alt_then, existsb.
  rewrite orb_false_r, orb_true_iff.
  by rewrite (match_literal_then "http" "://"), (match_literal_then "https" "://").
Qed.

Lemma hyperlink_fragment_spec (f : Fragment.t) :
  hyperlink_fragment f = true <-> is_hyperlink f.
Proof.
  unfold hyperlink_fragment, is_hyperlink.
  rewrite andb_true_iff, Z.eqb_eq.
  destruct (Fragment.spans f) as [|first rest].
  - split; [intros [_ ?]; discriminate | intros [_ (? & ? & ? & _)]; discriminate].
  - rewrite HYPERLINK_PATTERN_match_spec. split.
    + intros [Hc Hm]. split; [done|]. by exists first, rest.
    + intros [Hc (first' & rest' & Heq & Hm)].
      injection Heq as -> ->. done.
Qed.

Lemma string_append_nil_r (a : string) : a +:+ "" = a.
Proof.
  induction a as [|x a IH]; [reflexivity|].
  change (String x a +:+ "") with (String x (a +:+ "")). by rewrite IH.
Qed.

Lemma str_join_empty (parts : list string) :
  str_join "" parts = foldr String.append "" parts.
Proof.
  unfold str_join. induction parts as [|a parts IH]; [reflexivity|].
  destruct parts as [|b parts].
  - simpl. by rewrite string_append_nil_r.
  - change (String.concat "" (a :: b :: parts))
      with (a +:+ "" +:+ String.concat "" (b :: parts)).
    change ("" +:+ String.concat "" (b :: parts))
      with (String.concat "" (b :: parts)).
    by rewrite IH.
Qed.

Lemma to_string_empty (f : Fragment.t) : Fragment.to_string f "" = joined_text f.
Proof. apply str_join_empty. Qed.

(** ** The hyperlink merger *)

Lemma join_hyperlinks_body_cases (f : Fragment.t) :
  join_hyperlinks_body f = ok (merged f)
  \/ (join_hyperlinks_body f = raise IndexError /\ Fragment.spans f = []).
Proof.
  unfold join_hyperlinks_body, merged, hyperlink_fragment.
  destruct (Fragment.text_color f =? 1544191); simpl; [|by left].
  destruct (Fragment.spans f) as [|first rest] eqn:E.
  - right. by rewrite py_index_nil.
  - left. rewrite py_index_head. simpl. by destruct (HYPERLINK_PATTERN_match _).
Qed.

Lemma join_hyperlinks_body_ok (f f' : Fragment.t) :
  join_hyperlinks_body f = ok f' -> f' = merged f.
Proof.
  destruct (join_hyperlinks_body_cases f) as [H|[H _]]; rewrite H; [|discriminate].
  by intros [= <-].
Qed.

Lemma merged_same_but_text (f : Fragment.t) : same_but_text f (merged f).
Proof.
  unfold merged, same_but_text. by destruct (hyperlink_fragment f).
Qed.

Lemma merged_idempotent (f : Fragment.t) : merged (merged f) = merged f.
Proof.
  destruct f as [ix sp fs ff tc tx].
  unfold merged at 2. destruct (hyperlink_fragment _) eqn:E.
  - unfold merged. unfold hyperlink_fragment in *; simpl in *. by rewrite E.
  - unfold merged. by rewrite E.
Qed.

Lemma merged_body (f : Fragment.t) :
  join_hyperlinks_body f = ok (merged f) ->
  join_hyperlinks_body (merged f) = ok (merged f).
Proof.
  intros H. destruct (join_hyperlinks_body_cases (merged f)) as [H'|[H' Hs]].
  - by rewrite merged_idempotent in H'.
  - destruct (merged_same_but_text f) as (_ & Hsp & _). rewrite Hsp in Hs.
    assert (merged f = f) as Hm.
    { unfold merged, hyperlink_fragment. rewrite Hs. by rewrite andb_false_r. }
    rewrite Hm in *. congruence.
Qed.

(** The loop keeps the length of the list, leaves the objects outside
    the slice alone, and leaves every object as it was or merged. *)
Lemma join_hyperlinks_loop_frame (refs : list nat) :
  forall (frs frs' : list Fragment.t) (r : result unit),
    join_hyperlinks_loop refs frs = (r, frs') ->
    length frs' = length frs
    /\ forall p : nat,
         (p ∉ refs -> frs' !! p = frs !! p)
         /\ forall f : Fragment.t, frs !! p = Some f ->
              frs' !! p = Some f \/ frs' !! p = Some (merged f).
Proof.
  induction refs as [|p0 rest IH]; intros frs frs' r Hloop; simpl in Hloop.
  - injection Hloop as <- <-. split; [done|]. intros p. split; [done|]. by left.
  - destruct (frs !! p0) as [f0|] eqn:E0; cycle 1.
    { injection Hloop as <- <-. split; [done|]. intros p. split; [done|]. by left. }
    destruct (join_hyperlinks_body f0) as [e|f0'] eqn:Eb.
    { injection Hloop as <- <-. split; [done|]. intros p. split; [done|]. by left. }
    apply join_hyperlinks_body_ok in Eb as ->.
    destruct (IH _ _ _ Hloop) as [Hlen Hp]. rewrite length_insert in Hlen.
    split; [done|]. intros p. destruct (Hp p) as [Hout Hin]. split.
    + intros Hnot. apply not_elem_of_cons in Hnot as [Hne Hnot].
      rewrite Hout by done. by apply list_lookup_insert_ne.
    + intros f Hf. destruct (decide (p = p0)) as [->|Hne].
      * assert (f = f0) as -> by congruence.
        right. apply lookup_lt_Some in E0.
        destruct (Hin (merged f0)) as [H|H];
          [by apply list_lookup_insert_eq | done | by rewrite merged_idempotent in H].
      * apply Hin. by rewrite list_lookup_insert_ne.
Qed.

(** When the slice holds no fragment without spans the loop ends
    normally and every object of the slice is merged. *)
Lemma join_hyperlinks_loop_ok (refs : list nat) :
  NoDup refs ->
  forall frs : list Fragment.t,
    (forall p, p ∈ refs -> is_Some (frs !! p)) ->
    (forall p f, p ∈ refs -> frs !! p = Some f -> Fragment.spans f <> []) ->
    exists frs' : list Fragment.t,
      join_hyperlinks_loop refs frs = (ok tt, frs')
      /\ forall p f, p ∈ refs -> frs !! p = Some f -> frs' !! p = Some (merged f).
Proof.
  induction 1 as [|p0 rest Hnot Hnd IH]; intros frs Hdom Hsp; simpl.
  - exists frs. split; [done|]. intros p f Hp. by apply elem_of_nil in Hp.
  - destruct (Hdom p0) as [f0 E0]; [by left|]. rewrite E0.
    destruct (join_hyperlinks_body_cases f0) as [Eb|[_ Hs]]; cycle 1.
    { exfalso. eapply Hsp; [|done..]. by left. }
    rewrite Eb.
    destruct (IH (<[p0 := merged f0]> frs)) as (frs' & Hloop & Hall).
    + intros p Hp. apply lookup_lt_is_Some. rewrite length_insert.
      apply lookup_lt_is_Some, Hdom. by right.
    + intros p f Hp Hf. assert (p <> p0) as Hne by (by intros ->).
      rewrite list_lookup_insert_ne in Hf by done. eapply Hsp; [by right | done].
    + exists frs'. split; [done|]. intros p f Hp Hf.
      apply elem_of_cons in Hp as [->|Hp].
      * assert (f = f0) as -> by congruence.
        destruct (join_hyperlinks_loop_frame _ _ _ _ Hloop) as [_ Hfr].
        rewrite (proj1 (Hfr p0) Hnot).
        apply list_lookup_insert_eq. by apply lookup_lt_Some in E0.
      * assert (p <> p0) as Hne by (by intros ->).
        apply Hall; [done|]. by rewrite list_lookup_insert_ne.
Qed.

Lemma join_hyperlinks_loop_cons (p0 : nat) (rest : list nat)
    (frs : list Fragment.t) (f0 f0' : Fragment.t) :
  frs !! p0 = Some f0 -> join_hyperlinks_body f0 = ok f0' ->
  join_hyperlinks_loop (p0 :: rest) frs
  = join_hyperlinks_loop rest (<[p0 := f0']> frs).
Proof. intros E0 Eb. simpl. by rewrite E0, Eb. Qed.

Lemma join_hyperlinks_loop_idempotent (refs : list nat) :
  NoDup refs ->
  forall frs : list Fragment.t,
    join_hyperlinks_loop refs (join_hyperlinks_loop refs frs).2
    = join_hyperlinks_loop refs frs.
Proof.
  induction 1 as [|p0 rest Hnot Hnd IH]; intros frs; [reflexivity|].
  destruct (frs !! p0) as [f0|] eqn:E0; cycle 1.
  { simpl. rewrite E0. simpl. by rewrite E0. }
  destruct (join_hyperlinks_body_cases f0) as [Eb|[Eb _]]; cycle 1.
  { simpl. rewrite E0, Eb. simpl. by rewrite E0, Eb. }
  rewrite (join_hyperlinks_loop_cons _ _ _ _ _ E0 Eb).
  destruct (join_hyperlinks_loop rest (<[p0 := merged f0]> frs)) as [r frs'] eqn:Hloop.
  destruct (join_hyperlinks_loop_frame _ _ _ _ Hloop) as [_ Hfr].
  assert (frs' !! p0 = Some (merged f0)) as E0'.
  { rewrite (proj1 (Hfr p0) Hnot).
    apply list_lookup_insert_eq. by apply lookup_lt_Some in E0. }
  cbn [snd].
  rewrite (join_hyperlinks_loop_cons _ _ _ _ _ E0' (merged_body f0 Eb)).
  rewrite (list_insert_id _ _ _ E0').
  pose proof (IH (<[p0 := merged f0]> frs)) as IH'. by rewrite Hloop in IH'.
Qed.

Lemma py_slice_refs_spec (len : nat) (start : Z) (end_ : option Z) (p : nat) :
  p ∈ py_slice_refs len start end_ <-> in_slice len start end_ p.
Proof.
  unfold py_slice_refs, in_slice.
  destruct (slice_bounds len start end_) as [lo hi]; simpl.
  rewrite elem_of_seq. lia.
Qed.

Lemma py_slice_refs_NoDup (len : nat) (start : Z) (end_ : option Z) :
  NoDup (py_slice_refs len start end_).
Proof.
  unfold py_slice_refs. destruct (slice_bounds len start end_). apply NoDup_seq.
Qed.

Lemma in_slice_lt (len : nat) (start : Z) (end_ : option Z) (p : nat) :
  in_slice len start end_ p -> (p < len)%nat.
Proof.
  unfold in_slice. pose proof (slice_bounds_le len start end_). lia.
Qed.

(** ** Claims on the hyperlink merger *)



(** C6: running [join_hyperlinks] a second time over the same range
    returns the same outcome and leaves every fragment, override text
    included, as the first run left it. *)
Theorem join_hyperlinks_idempotent (frs : list Fragment.t) (start : Z) (end_ : option Z) :
  join_hyperlinks (join_hyperlinks frs start end_).2 start end_
  = join_hyperlinks frs start end_.
Proof.
  unfold join_hyperlinks.
  destruct (join_hyperlinks_loop (py_slice_refs (length frs) start end_) frs)
    as [r frs'] eqn:Hloop.
  destruct (join_hyperlinks_loop_frame _ _ _ _ Hloop) as [Hlen _].
  cbn [snd]. rewrite Hlen, <- Hloop.
  pose proof (join_hyperlinks_loop_idempotent _
                (py_slice_refs_NoDup (length frs) start end_) frs) as Hid.
  by rewrite Hloop in Hid |- *.
Qed.

(** C7: no public operation changes the length of the fragment list
    or the index, spans, font size, font family or colour of a
    fragment; an override text changes only in [join_hyperlinks], on a
    fragment of the slice of the hyperlink colour whose first span
    begins like a URL, and becomes the joined texts of its spans. *)
Theorem call_frame (op : operation) (frs : list Fragment.t) :
  length (call op frs).2 = length frs
  /\ forall (p : nat) (f : Fragment.t), frs !! p = Some f ->
       exists f' : Fragment.t,
         (call op frs).2 !! p = Some f'
         /\ same_but_text f f'
         /\ (Fragment.text f' <> Fragment.text f ->
             exists (start : Z) (end_ : option Z),
               op = JoinHyperlinks start end_
               /\ in_slice (length frs) start end_ p
               /\ is_hyperlink f
               /\ Fragment.text f' = Some (joined_text f)).
Proof.
  assert (forall f : Fragment.t, same_but_text f f) as Hrefl by (by intros f).
  destruct op as [s e|i|pages|spans|s e|s e|t s e]; simpl;
    try (split; [done|]; intros p f Hf; exists f; by repeat split).
  unfold join_hyperlinks.
  destruct (join_hyperlinks_loop (py_slice_refs (length frs) s e) frs)
    as [r frs'] eqn:Hloop.
  destruct (join_hyperlinks_loop_frame _ _ _ _ Hloop) as [Hlen Hfr].
  cbn [snd]. split; [done|]. intros p f Hf.
  destruct (Hfr p) as [Hout Hin].
  destruct (Hin f Hf) as [H|H]; [exists f; by repeat split|].
  exists (merged f). split; [done|]. split; [apply merged_same_but_text|].
  intros Hne. exists s, e. split; [done|].
  assert (hyperlink_fragment f = true) as Hlink.
  { destruct (hyperlink_fragment f) eqn:E; [done|].
    unfold merged in Hne. by rewrite E in Hne. }
  split; [|split].
  - apply py_slice_refs_spec.
    destruct (decide (p ∈ py_slice_refs (length frs) s e)) as [Hp|Hp]; [done|].
    exfalso. rewrite (Hout Hp), Hf in H. injection H as H.
    apply Hne. by rewrite <- H.
  - by apply hyperlink_fragment_spec.
  - unfold merged. rewrite Hlink. simpl. by rewrite to_string_empty.
Qed.

(** ** The text locator *)

Lemma find_span_Some (spans : list Span.t) (text : string) :
  forall k r : Z,
    find_span spans text k = Some r ->
    exists (i : nat) (s : Span.t),
      r = k + Z.of_nat i
      /\ spans !! i = Some s /\ Span.text s = text
      /\ forall (j : nat) (s' : Span.t),
           (j < i)%nat -> spans !! j = Some s' -> Span.text s' <> text.
Proof.
  induction spans as [|span spans IH]; intros k r Hfind; simpl in Hfind.
  - discriminate.
  - destruct (String.eqb_spec (Span.text span) text) as [Heq|Hne].
    + injection Hfind as <-. exists 0%nat, span.
      repeat split; [lia | done | lia].
    + destruct (IH _ _ Hfind) as (i & s & -> & Hs & Ht & Hmin).
      exists (S i), s. repeat split; [lia | done | done |].
      intros [|j] s' Hj Hs'; simpl in Hs'; [congruence|].
      apply (Hmin j); [lia | done].
Qed.

Lemma find_span_None (spans : list Span.t) (text : string) :
  forall k : Z,
    find_span spans text k = None ->
    forall (j : nat) (s : Span.t), spans !! j = Some s -> Span.text s <> text.
Proof.
  induction spans as [|span spans IH]; intros k Hfind j s Hs; simpl in Hfind.
  - by rewrite lookup_nil in Hs.
  - destruct (String.eqb_spec (Span.text span) text) as [Heq|Hne]; [discriminate|].
    destruct j as [|j]; simpl in Hs; [congruence | eauto].
Qed.

Lemma find_fragment_spec (l : list Fragment.t) (text : string) :
  (exists (q : nat) (f : Fragment.t) (r : Z),
     l !! q = Some f
     /\ find_span (Fragment.spans f) text 0 = Some r
     /\ (forall (q' : nat) (g : Fragment.t),
           (q' < q)%nat -> l !! q' = Some g ->
           find_span (Fragment.spans g) text 0 = None)
     /\ find_fragment l text = (Fragment.index f, r))
  \/ ((forall (q : nat) (g : Fragment.t),
         l !! q = Some g -> find_span (Fragment.spans g) text 0 = None)
      /\ find_fragment l text = (-1, -1)).
Proof.
  induction l as [|fragment l IH]; simpl.
  - right. split; [|done]. intros q g Hq. by rewrite lookup_nil in Hq.
  - destruct (find_span (Fragment.spans fragment) text 0) as [r|] eqn:E.
    + left. exists 0%nat, fragment, r. repeat split; [done|]. lia.
    + destruct IH as [(q & f & r & Hq & Hr & Hmin & Hres)|[Hnone Hres]].
      * left. exists (S q), f, r. repeat split; [done | done | | done].
        intros [|q'] g Hlt Hg; simpl in Hg; [congruence|].
        apply (Hmin q'); [lia | done].
      * right. split; [|done].
        intros [|q] g Hg; simpl in Hg; [congruence | eauto].
Qed.

Lemma py_slice_lookup_Some {A : Type} (l : list A) (start : Z) (end_ : option Z)
    (q : nat) (a : A) :
  py_slice l start end_ !! q = Some a <->
  in_slice (length l) start end_ (fst (slice_bounds (length l) start end_) + q)
  /\ l !! (fst (slice_bounds (length l) start end_) + q)%nat = Some a.
Proof.
  rewrite py_slice_lookup. unfold in_slice.
  destruct (slice_bounds (length l) start end_) as [lo hi]; simpl.
  case_decide; [|split; [discriminate | lia]].
  split; [intros ?; split; [lia | done] | by intros [_ ?]].
Qed.

(** C9: [get_index_by_text] returns the index of the fragment and the
    place within it of the first span, in document order within the
    slice, whose text is exactly the query, and [(-1, -1)] when no
    span of the slice has exactly that text. *)
Theorem get_index_by_text_spec (frs : list Fragment.t) (text : string)
    (start : Z) (end_ : option Z) :
  (exists (p i : nat) (f : Fragment.t),
     in_slice (length frs) start end_ p
     /\ frs !! p = Some f
     /\ span_at frs p i text
     /\ (forall q j : nat,
           in_slice (length frs) start end_ q -> span_at frs q j text ->
           ~ before q j p i)
     /\ get_index_by_text frs text start end_ = (Fragment.index f, Z.of_nat i))
  \/ ((forall q j : nat,
         in_slice (length frs) start end_ q -> ~ span_at frs q j text)
      /\ get_index_by_text frs text start end_ = (-1, -1)).
Proof.
  unfold get_index_by_text.
  set (lo := fst (slice_bounds (length frs) start end_)).
  assert (forall q, in_slice (length frs) start end_ q ->
            exists q', q = (lo + q')%nat) as Hshift.
  { intros q [Hq _]. exists (q - lo)%nat. subst lo. lia. }
  destruct (find_fragment_spec (py_slice frs start end_) text)
    as [(q & f & r & Hq & Hr & Hmin & Hres)|[Hnone Hres]].
  - left. apply py_slice_lookup_Some in Hq as [Hin Hf]. fold lo in Hin, Hf.
    apply find_span_Some in Hr as (i & s & -> & Hs & Ht & Hfirst).
    exists (lo + q)%nat, i, f. split; [done|]. split; [done|].
    split; [by exists f, s|]. split; [|by rewrite Hres].
    intros q0 j Hin0 (g & s' & Hg & Hs' & Ht') Hbefore.
    destruct (Hshift q0 Hin0) as [q' ->].
    destruct Hbefore as [Hlt|[Heq Hlt]].
    + assert (find_span (Fragment.spans g) text 0 = None) as Hn.
      { apply (Hmin q'); [lia|]. apply py_slice_lookup_Some. by fold lo. }
      by apply (find_span_None _ _ _ Hn j s').
    + assert (q' = q) as -> by lia.
      assert (g = f) as -> by congruence.
      by apply (Hfirst j s').
  - right. split; [|done].
    intros q0 j Hin0 (g & s' & Hg & Hs' & Ht').
    destruct (Hshift q0 Hin0) as [q' ->].
    assert (find_span (Fragment.spans g) text 0 = None) as Hn.
    { apply (Hnone q'). apply py_slice_lookup_Some. by fold lo. }
    by apply (find_span_None _ _ _ Hn j s').
Qed.

(** ** The paragraph assembler *)


(** The loop appends the texts of a run of [k] fragments that continue
    the font size, and stops at a fragment of another size or at the
    end of the slice. *)
Lemma paragraph_loop_spec (rest : list Fragment.t) :
  forall (previous : Fragment.t) (paragraph : list string) (break_index : Z),
  exists k : nat,
    (k <= length rest)%nat
    /\ size_chain (previous :: take k rest)
    /\ (paragraph_loop rest previous paragraph break_index).1
       = paragraph ++ map text_or_to_string (take k rest)
    /\ ((exists g g' : Fragment.t,
           rest !! k = Some g
           /\ last (previous :: take k rest) = Some g'
           /\ float_ne (Fragment.font_size g) (Fragment.font_size g') = true
           /\ (paragraph_loop rest previous paragraph break_index).2
              = Fragment.index g)
        \/ (k = length rest
            /\ (paragraph_loop rest previous paragraph break_index).2
               = break_index)).
Proof.
  induction rest as [|current rest IH]; intros previous paragraph break_index.
  - exists 0%nat. simpl. split; [lia|]. split.
    { intros j g' g _ Hg. by destruct j. }
    split; [by rewrite app_nil_r|]. by right.
  - simpl.
    destruct (float_ne (Fragment.font_size current) (Fragment.font_size previous))
      eqn:E.
    + exists 0%nat. simpl. split; [lia|]. split.
      { intros j g' g _ Hg. by destruct j. }
      split; [by rewrite app_nil_r|]. left. by exists current, previous.
    + destruct (IH current (paragraph ++ [text_or_to_string current]) break_index)
        as (k & Hk & Hchain & Hpar & Hstop).
      exists (S k).
      change (take (S k) (current :: rest)) with (current :: take k rest).
      split; [simpl; lia|]. split.
      { intros [|j] g' g Hg' Hg; simpl in Hg', Hg.
        - injection Hg' as <-. injection Hg as <-. by apply float_ne_false.
        - by apply (Hchain j). }
      split; [by rewrite Hpar, <- app_assoc|].
      destruct Hstop as [(g & g' & Hg & Hlast & Hne & Hb)|[-> Hb]].
      * left. exists g, g'. split; [done|].
        split; [by rewrite last_cons, Hlast | done].
      * by right.
Qed.

(** The slice [start + 1 : end_] after an in-bounds [start]. *)
Lemma py_slice_after (frs : list Fragment.t) (start : Z) (end_ : option Z) :
  0 <= start -> (Z.to_nat start < length frs)%nat ->
  exists n : nat,
    py_slice frs (start + 1) end_ = take n (drop (S (Z.to_nat start)) frs)
    /\ (S (Z.to_nat start) + n <= length frs)%nat
    /\ forall p : nat,
         in_slice (length frs) (start + 1) end_ p
         <-> (S (Z.to_nat start) <= p < S (Z.to_nat start) + n)%nat.
Proof.
  intros H0 Hlt. unfold py_slice, in_slice.
  pose proof (slice_bounds_nonneg (length frs) (start + 1) end_ ltac:(lia)) as Hlo.
  pose proof (slice_bounds_le (length frs) (start + 1) end_) as [_ Hhi].
  destruct (slice_bounds (length frs) (start + 1) end_) as [lo hi]; simpl in *.
  assert (lo = S (Z.to_nat start)) as -> by lia.
  exists (hi - S (Z.to_nat start))%nat. split; [done|]. split; lia.
Qed.

(** What [get_paragraph] returns from an in-bounds, non-negative
    start: the texts of a run that continues the font size, and the
    index of the fragment that ends the run when there is one in the
    slice, else the index of the starting fragment. *)
Lemma get_paragraph_run (frs : list Fragment.t) (start : Z) (end_ : option Z)
    (f0 : Fragment.t) :
  0 <= start -> frs !! Z.to_nat start = Some f0 ->
  exists (k : nat) (paragraph : string) (break_index : Z),
    get_paragraph frs start end_ = ok (paragraph, break_index)
    /\ length (take (S k) (drop (Z.to_nat start) frs)) = S k
    /\ (forall j : nat, (1 <= j <= k)%nat ->
          in_slice (length frs) (start + 1) end_ (Z.to_nat start + j))
    /\ size_chain (take (S k) (drop (Z.to_nat start) frs))
    /\ paragraph = foldr String.append ""
         (map text_or_to_string (take (S k) (drop (Z.to_nat start) frs)))
    /\ ((exists g g' : Fragment.t,
           in_slice (length frs) (start + 1) end_ (Z.to_nat start + S k)
           /\ frs !! (Z.to_nat start + S k)%nat = Some g
           /\ frs !! (Z.to_nat start + k)%nat = Some g'
           /\ float_ne (Fragment.font_size g) (Fragment.font_size g') = true
           /\ break_index = Fragment.index g)
        \/ (~ in_slice (length frs) (start + 1) end_ (Z.to_nat start + S k)
            /\ break_index = Fragment.index f0)).
Proof.
  intros H0 Hf0. set (s := Z.to_nat start) in *.
  apply lookup_lt_Some in Hf0 as Hlt.
  destruct (py_slice_after frs start end_ H0 Hlt) as (n & Hslice & Hn & Hin).
  fold s in Hslice, Hn, Hin.
  unfold get_paragraph. rewrite (py_index_nonneg frs start f0 H0 Hf0). simpl.
  rewrite Hslice.
  destruct (paragraph_loop_spec (take n (drop (S s) frs)) f0
              [text_or_to_string f0] (Fragment.index f0))
    as (k & Hk & Hchain & Hpar & Hstop).
  destruct (paragraph_loop _ f0 _ _) as [paragraph break_index]; simpl in *.
  rewrite length_take, length_drop in Hk.
  assert (k <= n)%nat as Hkn by lia.
  assert (f0 :: take k (take n (drop (S s) frs)) = take (S k) (drop s frs)) as Hrun.
  { rewrite take_take, Nat.min_l by lia.
    rewrite (drop_S frs f0 s Hf0). reflexivity. }
  rewrite Hrun in Hchain, Hstop.
  exists k, (str_join "" paragraph), break_index.
  split; [done|]. split.
  { rewrite length_take, length_drop. lia. }
  split.
  { intros j Hj. apply Hin. lia. }
  split; [done|]. split.
  { rewrite str_join_empty, Hpar. f_equal.
    change (map text_or_to_string (f0 :: take k (take n (drop (S s) frs)))
            = map text_or_to_string (take (S k) (drop s frs))).
    by rewrite Hrun. }
  destruct Hstop as [(g & g' & Hg & Hlast & Hne & Hb)|[Hend Hb]].
  - left. exists g, g'.
    apply lookup_take_Some in Hg as [Hg Hkn'].
    rewrite lookup_drop in Hg.
    split; [apply Hin; lia|].
    split; [by replace (s + S k)%nat with (S s + k)%nat by lia|].
    split; [|done].
    rewrite last_lookup, length_take, length_drop in Hlast.
    replace (Nat.pred (S k `min` (length frs - s))) with k in Hlast by lia.
    rewrite lookup_take_lt, lookup_drop in Hlast by lia. done.
  - right. split; [|done]. rewrite Hin.
    rewrite length_take, length_drop in Hend. lia.
Qed.

Lemma in_slice_after (len : nat) (start : Z) (end_ : option Z) (p : nat) :
  0 <= start -> (Z.to_nat start < len)%nat ->
  in_slice len (start + 1) end_ p -> in_slice len start end_ p.
Proof.
  intros H0 Hlt. unfold in_slice.
  rewrite !slice_bounds_nonneg by lia.
  unfold slice_bounds; simpl. lia.
Qed.

(** ** Claims on the paragraph assembler *)







(** C1, as stated, fails: on two fragments of one font size, from
    start 0 and without end bound, the break index is 0, the index of
    the starting fragment, and not 1, the index of the last one. *)
Lemma get_paragraph_break_not_last :
  0 <= 0 < Z.of_nat (length uniform_fragments)
  /\ uniform_range uniform_fragments 0 None
  /\ two_in_range uniform_fragments 0 None
  /\ get_paragraph uniform_fragments 0 None = ok ("Hello World", 0)
  /\ ~ break_is_last uniform_fragments 0 None.
Proof.
  split; [simpl; lia|]. split.
  { intros p g f0 _ Hg Hf0. injection Hf0 as <-.
    destruct p as [|[|p]]; simpl in Hg; [| |discriminate];
      injection Hg as <-; reflexivity. }
  split; [unfold two_in_range, in_slice; vm_compute; lia|].
  split; [reflexivity|].
  intros (paragraph & final & Hfinal & Hget).
  simpl in Hfinal. injection Hfinal as <-. discriminate.
Qed.

(** C1, amended: from an in-bounds start, when every fragment of the
    slice [start:end_] has the font size of the starting fragment (and
    the slice holds at least two fragments), the break index that
    [get_paragraph] returns is the index of the starting fragment. *)
Theorem get_paragraph_break_uniform (frs : list Fragment.t) (start : Z)
    (end_ : option Z) :
  0 <= start < Z.of_nat (length frs) ->
  uniform_range frs start end_ ->
  two_in_range frs start end_ ->
  exists (paragraph : string) (f0 : Fragment.t),
    frs !! Z.to_nat start = Some f0
    /\ get_paragraph frs start end_ = ok (paragraph, Fragment.index f0).
Proof.
  intros Hstart Huni _.
  destruct (lookup_lt_is_Some_2 frs (Z.to_nat start)) as [f0 Hf0]; [lia|].
  destruct (get_paragraph_run frs start end_ f0 ltac:(lia) Hf0)
    as (k & paragraph & break_index & Hget & Hlen & Hin & Hchain & Hpar & Hstop).
  exists paragraph, f0. split; [done|].
  destruct Hstop as [(g & g' & Hg_in & Hg & Hg' & Hne & Hb)|[_ ->]]; [|done].
  exfalso.
  assert (float_eq (Fragment.font_size g) (Fragment.font_size f0) = true) as Eg.
  { apply (Huni (Z.to_nat start + S k)%nat g f0); [|done..].
    apply in_slice_after; [lia..|done]. }
  assert (float_eq (Fragment.font_size g) (Fragment.font_size g') = true) as E.
  { destruct k as [|k].
    - rewrite Nat.add_0_r in Hg'. by assert (g' = f0) as -> by congruence.
    - assert (float_eq (Fragment.font_size g') (Fragment.font_size f0) = true).
      { apply (Huni (Z.to_nat start + S k)%nat g' f0); [|done..].
        apply in_slice_after; [lia..|]. apply Hin. lia. }
      eauto with metadata. }
  apply float_ne_false in E. congruence.
Qed.

Lemma get_paragraph_break_uniform_witness :
  exists (paragraph : string) (f0 : Fragment.t),
    uniform_fragments !! Z.to_nat 0 = Some f0
    /\ get_paragraph uniform_fragments 0 None = ok (paragraph, Fragment.index f0).
Proof.
  apply (get_paragraph_break_uniform uniform_fragments 0 None).
  - simpl. lia.
  - intros p g f0 _ Hg Hf0. injection Hf0 as <-.
    destruct p as [|[|p]]; simpl in Hg; [| |discriminate];
      injection Hg as <-; reflexivity.
  - unfold two_in_range, in_slice; vm_compute; lia.
Defined.

(** [get_paragraph] reads of a fragment its index, its font size and
    its text only. *)
Lemma paragraph_loop_view (l l' : list Fragment.t) :
  Forall2 same_view l l' ->
  forall (previous previous' : Fragment.t) (paragraph : list string)
         (break_index : Z),
    Fragment.font_size previous = Fragment.font_size previous' ->
    paragraph_loop l previous paragraph break_index
    = paragraph_loop l' previous' paragraph break_index.
Proof.
  induction 1 as [|x y l l' (Hi & Hs & Ht) _ IH];
    intros previous previous' paragraph break_index Hp; simpl; [done|].
  rewrite Hi, Hs, Ht, Hp.
  destruct (float_ne _ _); [done|]. by apply IH.
Qed.

Lemma py_slice_Forall2 {A : Type} (P : A -> A -> Prop) (l l' : list A)
    (start : Z) (stop : option Z) :
  Forall2 P l l' -> Forall2 P (py_slice l start stop) (py_slice l' start stop).
Proof.
  intros H. unfold py_slice. rewrite <- (Forall2_length _ _ _ H).
  destruct (slice_bounds (length l) start stop) as [lo hi].
  by apply Forall2_take, Forall2_drop.
Qed.

Lemma py_index_Forall2 {A : Type} (P : A -> A -> Prop) (l l' : list A) (i : Z) :
  Forall2 P l l' ->
  (exists e : exn, py_index l i = inl e /\ py_index l' i = inl e)
  \/ (exists a b : A, py_index l i = ok a /\ py_index l' i = ok b /\ P a b).
Proof.
  intros H. unfold py_index. rewrite <- (Forall2_length _ _ _ H).
  destruct (index_position (length l) i) as [e|p]; simpl; [left; by exists e|].
  destruct (l !! p) as [a|] eqn:E.
  - destruct (Forall2_lookup_l _ _ _ _ _ H E) as (b & -> & Hab).
    right. by exists a, b.
  - apply lookup_ge_None in E. rewrite (Forall2_length _ _ _ H) in E.
    apply lookup_ge_None in E. rewrite E. left. by exists IndexError.
Qed.

Lemma get_paragraph_view (frs frs' : list Fragment.t) (start : Z) (end_ : option Z) :
  Forall2 same_view frs frs' ->
  get_paragraph frs start end_ = get_paragraph frs' start end_.
Proof.
  intros H. unfold get_paragraph.
  destruct (py_index_Forall2 _ _ _ start H)
    as [(e & -> & ->)|(a & b & -> & -> & Hi & Hs & Ht)]; [done|].
  simpl. rewrite Hi, Ht.
  by rewrite (paragraph_loop_view _ _ (py_slice_Forall2 _ _ _ (start + 1) end_ H)
                a b _ _ Hs).
Qed.

Lemma py_index_in_bounds {A : Type} (l : list A) (i : Z) :
  - Z.of_nat (length l) <= i < Z.of_nat (length l) ->
  exists a : A, py_index l i = ok a.
Proof.
  intros Hi. unfold py_index, index_position.
  set (j := if i <? 0 then i + Z.of_nat (length l) else i).
  assert (0 <= j < Z.of_nat (length l)) as Hj
    by (subst j; destruct (Z.ltb_spec i 0); lia).
  destruct (Z.ltb_spec j 0); [lia|].
  destruct (Z.leb_spec (Z.of_nat (length l)) j); [lia|]. simpl.
  destruct (lookup_lt_is_Some_2 l (Z.to_nat j)) as [a Ha]; [lia|].
  rewrite Ha. by exists a.
Qed.

Lemma foldr_append_app (l1 l2 : list string) :
  foldr String.append "" (l1 ++ l2)
  = foldr String.append "" l1 +:+ foldr String.append "" l2.
Proof.
  induction l1 as [|a l1 IH]; simpl; [done|].
  by rewrite IH, string_append_assoc.
Qed.

(** The paragraph is made of the texts of the fragments the loop
    visits until it stops, the starting fragment first. *)
Lemma get_paragraph_visited (frs : list Fragment.t) (start : Z) (end_ : option Z)
    (f0 : Fragment.t) :
  py_index frs start = ok f0 ->
  exists (k : nat) (paragraph : string) (break_index : Z),
    get_paragraph frs start end_ = ok (paragraph, break_index)
    /\ (k <= length (get_fragments frs (start + 1) end_))%nat
    /\ size_chain (f0 :: take k (get_fragments frs (start + 1) end_))
    /\ paragraph = foldr String.append ""
         (map text_or_to_string
            (f0 :: take k (get_fragments frs (start + 1) end_)))
    /\ ((exists g g' : Fragment.t,
           get_fragments frs (start + 1) end_ !! k = Some g
           /\ last (f0 :: take k (get_fragments frs (start + 1) end_)) = Some g'
           /\ float_ne (Fragment.font_size g) (Fragment.font_size g') = true
           /\ break_index = Fragment.index g)
        \/ (k = length (get_fragments frs (start + 1) end_)
            /\ break_index = Fragment.index f0)).
Proof.
  intros Hf0. unfold get_paragraph, get_fragments. rewrite Hf0. simpl.
  destruct (paragraph_loop_spec (py_slice frs (start + 1) end_) f0
              [text_or_to_string f0] (Fragment.index f0))
    as (k & Hk & Hchain & Hpar & Hstop).
  destruct (paragraph_loop _ f0 _ _) as [paragraph break_index]; simpl in *.
  exists k, (str_join "" paragraph), break_index.
  split; [done|]. split; [done|]. split; [done|]. split; [|done].
  by rewrite str_join_empty, Hpar.
Qed.

(** C10: from every start index that [get_paragraph] accepts, the
    paragraph is the texts of the fragments visited until the loop
    stops, and a visited fragment whose override text is the empty
    string stands in it, at its place, as the texts of its spans
    joined with one space; and [get_paragraph] returns the same
    paragraph and break index when a fragment with the empty override
    text has no override text instead. *)
Theorem get_paragraph_empty_override (frs : list Fragment.t) (start : Z)
    (end_ : option Z) :
  - Z.of_nat (length frs) <= start < Z.of_nat (length frs) ->
  exists (f0 : Fragment.t) (k : nat) (paragraph : string) (break_index : Z),
    get_fragment frs start = ok f0
    /\ get_paragraph frs start end_ = ok (paragraph, break_index)
    /\ (k <= length (get_fragments frs (start + 1) end_))%nat
    /\ size_chain (f0 :: take k (get_fragments frs (start + 1) end_))
    /\ ((exists g g' : Fragment.t,
           get_fragments frs (start + 1) end_ !! k = Some g
           /\ last (f0 :: take k (get_fragments frs (start + 1) end_)) = Some g'
           /\ float_ne (Fragment.font_size g) (Fragment.font_size g') = true)
        \/ k = length (get_fragments frs (start + 1) end_))
    /\ (forall (j : nat) (f : Fragment.t),
          (f0 :: take k (get_fragments frs (start + 1) end_)) !! j = Some f ->
          Fragment.text f = Some "" ->
          paragraph
          = foldr String.append ""
              (map text_or_to_string
                 (take j (f0 :: take k (get_fragments frs (start + 1) end_))))
            +:+ str_join " " (map Span.text (Fragment.spans f))
            +:+ foldr String.append ""
                  (map text_or_to_string
                     (drop (S j)
                        (f0 :: take k (get_fragments frs (start + 1) end_)))))
    /\ (forall (p : nat) (f : Fragment.t),
          frs !! p = Some f -> Fragment.text f = Some "" ->
          get_paragraph (<[p := clear_text f]> frs) start end_
          = ok (paragraph, break_index)).
Proof.
  intros Hstart.
  destruct (py_index_in_bounds frs start Hstart) as (f0 & Hf0).
  destruct (get_paragraph_visited frs start end_ f0 Hf0)
    as (k & paragraph & break_index & Hget & Hk & Hchain & Hpar & Hstop).
  exists f0, k, paragraph, break_index.
  split; [done|]. split; [done|]. split; [done|]. split; [done|]. split.
  { destruct Hstop as [(g & g' & Hg & Hg' & Hne & _)|[-> _]];
      [left; by exists g, g' | by right]. }
  split.
  - intros j f Hj Ht.
    rewrite Hpar at 1.
    rewrite <- (take_drop_middle _ j f Hj) at 1.
    rewrite map_app, foldr_append_app. simpl. f_equal. f_equal.
    unfold text_or_to_string. by rewrite Ht.
  - intros p f Hf Ht. rewrite <- Hget. symmetry. apply get_paragraph_view.
    apply Forall2_same_length_lookup_2; [by rewrite length_insert|].
    intros i x y Hx Hy. destruct (decide (i = p)) as [->|Hne].
    + rewrite list_lookup_insert_eq in Hy by (by eapply lookup_lt_Some).
      assert (x = f) as -> by congruence. injection Hy as <-.
      split; [done|]. split; [done|].
      unfold text_or_to_string. by rewrite Ht.
    + rewrite list_lookup_insert_ne in Hy by done.
      assert (x = y) as -> by congruence. by repeat split.
Qed.

Lemma get_paragraph_empty_override_witness :
  exists (f0 : Fragment.t) (k : nat) (paragraph : string) (break_index : Z),
    get_fragment [empty_override; empty_override] (-1) = ok f0
    /\ get_paragraph [empty_override; empty_override] (-1) None
       = ok (paragraph, break_index)
    /\ (k <= length (get_fragments [empty_override; empty_override] (-1 + 1) None))%nat
    /\ size_chain
         (f0 :: take k (get_fragments [empty_override; empty_override] (-1 + 1) None))
    /\ ((exists g g' : Fragment.t,
           get_fragments [empty_override; empty_override] (-1 + 1) None !! k = Some g
           /\ last (f0 :: take k
                      (get_fragments [empty_override; empty_override] (-1 + 1) None))
              = Some g'
           /\ float_ne (Fragment.font_size g) (Fragment.font_size g') = true)
        \/ k = length (get_fragments [empty_override; empty_override] (-1 + 1) None))
    /\ (forall (j : nat) (f : Fragment.t),
          (f0 :: take k (get_fragments [empty_override; empty_override] (-1 + 1) None))
          !! j = Some f ->
          Fragment.text f = Some "" ->
          paragraph
          = foldr String.append ""
              (map text_or_to_string
                 (take j (f0 :: take k
                    (get_fragments [empty_override; empty_override] (-1 + 1) None))))
            +:+ str_join " " (map Span.text (Fragment.spans f))
            +:+ foldr String.append ""
                  (map text_or_to_string
                     (drop (S j)
                        (f0 :: take k
                           (get_fragments [empty_override; empty_override]
                              (-1 + 1) None)))))
    /\ (forall (p : nat) (f : Fragment.t),
          [empty_override; empty_override] !! p = Some f ->
          Fragment.text f = Some "" ->
          get_paragraph (<[p := clear_text f]> [empty_override; empty_override])
            (-1) None
          = ok (paragraph, break_index)).
Proof.
  apply (get_paragraph_empty_override [empty_override; empty_override] (-1) None).
  simpl. lia.
Defined.

(** ** The scenarios, evaluated *)

Example size12_binary64 : valid_binary 53 1024 size12 = true.
Proof. reflexivity. Qed.

Example size14_binary64 : valid_binary 53 1024 size14 = true.
Proof. reflexivity. Qed.

Example scenario_fragments :
  convert_to_fragments scenario_spans =
  ok [ Fragment.mk 0 [ Span.mk size12 "Arial" 0 "Hello";
                       Span.mk size12 "Arial" 0 " World" ]
                   size12 "Arial" 0 None;
       Fragment.mk 1 [ Span.mk size14 "Arial" 0 "Title" ] size14 "Arial" 0 None ].
Proof. reflexivity. Qed.

Example link_fragments_built : convert_to_fragments link_spans = ok link_fragments.
Proof. reflexivity. Qed.

Example uniform_fragments_built :
  convert_to_fragments uniform_spans = ok uniform_fragments.
Proof. reflexivity. Qed.

Example scenario_hyperlinks :
  join_hyperlinks link_fragments 0 None =
  (ok tt,
   [ Fragment.mk 0 [ Span.mk size12 "Arial" 1544191 "https://exam";
                     Span.mk size12 "Arial" 1544191 "ple.com" ]
                   size12 "Arial" 1544191 (Some "https://example.com");
     Fragment.mk 1 [ Span.mk size14 "Arial" 1544191 "not a link" ]
                   size14 "Arial" 1544191 None ]).
Proof. reflexivity. Qed.

Example scenario_uppercase_scheme : HYPERLINK_PATTERN_match "HTTP://a" = false.
Proof. reflexivity. Qed.

Example scenario_paragraph :
  get_paragraph paragraph_fragments 0 None = ok ("Introduc tion", 2).
Proof. reflexivity. Qed.

Example scenario_paragraph_end :
  get_paragraph paragraph_fragments 3 None = ok ("Body", 3).
Proof. reflexivity. Qed.

Example scenario_empty_override :
  get_paragraph [empty_override] 0 None = ok ("a b", 0).
Proof. reflexivity. Qed.

Example scenario_minus_one :
  get_paragraph paragraph_fragments (-1) None = ok ("BodyIntroduc tion", 2)
  /\ get_paragraph paragraph_fragments (-2) None = ok ("Title", 3).
Proof. split; reflexivity. Qed.

Example scenario_locate :
  get_index_by_text
    [ Fragment.mk 0 [ Span.mk size12 "Arial" 0 "Hello";
                      Span.mk size12 "Arial" 0 "World" ] size12 "Arial" 0 None ]
    "World" 0 None = (0, 1)
  /\ get_index_by_text paragraph_fragments "xyz" 0 None = (-1, -1)
  /\ get_index_by_text paragraph_fragments "title" 0 None = (-1, -1)
  /\ get_index_by_text paragraph_fragments "Tit" 0 None = (-1, -1).
Proof. repeat split. Qed.

Example scenario_negative_start :
  get_paragraph uniform_fragments (-1) None = ok (" WorldHello World", 1).
Proof. reflexivity. Qed.

(** * Further properties of the code *)

(** ** Metadata equality *)

(** [has_equal_metadata] does not depend on the order of its
    arguments and is transitive. *)
Theorem has_equal_metadata_symmetric_transitive (s t u : Span.t) :
  Span.has_equal_metadata s t = Span.has_equal_metadata t s
  /\ (Span.has_equal_metadata s t = true ->
      Span.has_equal_metadata t u = true ->
      Span.has_equal_metadata s u = true).
Proof.
  split; [|apply has_equal_metadata_trans].
  destruct (Span.has_equal_metadata s t) eqn:E1,
           (Span.has_equal_metadata t s) eqn:E2; try done.
  - apply has_equal_metadata_sym in E1. congruence.
  - apply has_equal_metadata_sym in E2. congruence.
Qed.

(** A span has its own metadata exactly when its font size is not a
    NaN. *)
Theorem has_equal_metadata_reflexive_iff (s : Span.t) :
  Span.has_equal_metadata s s = true <-> Span.font_size s <> S754_nan.
Proof.
  rewrite has_equal_metadata_spec. split.
  - intros (H & _ & _) Hnan. rewrite Hnan in H. discriminate.
  - intros Hnan. split; [by apply float_eq_refl | done].
Qed.

(** ** The span extractor and the constructor *)

(** The spans of a document are those of its first pages followed by
    those of its last pages. *)
Theorem extract_spans_app (pages1 pages2 : list raw_page) :
  extract_spans (pages1 ++ pages2) = extract_spans pages1 ++ extract_spans pages2.
Proof. unfold extract_spans. apply flat_map_app. Qed.

(** A block without the key ["lines"] adds nothing: the extracted
    spans are those of the document without that block. *)
Theorem extract_spans_skips_block (pages1 pages2 : list raw_page)
    (blocks1 blocks2 : list raw_block) :
  extract_spans
    (pages1 ++ mk_raw_page (blocks1 ++ mk_raw_block None :: blocks2) :: pages2)
  = extract_spans (pages1 ++ mk_raw_page (blocks1 ++ blocks2) :: pages2).
Proof.
  unfold extract_spans. rewrite !flat_map_app. simpl.
  by rewrite !flat_map_app.
Qed.

Lemma extract_spans_nil (pages : list raw_page) :
  (forall (page : raw_page) (block : raw_block) (lines : list raw_line)
          (line : raw_line),
     page ∈ pages -> block ∈ page_blocks page ->
     block_lines block = Some lines -> line ∈ lines -> line_spans line = []) ->
  extract_spans pages = [].
Proof.
  intros Hall. unfold extract_spans.
  induction pages as [|page pages IH]; simpl; [done|].
  rewrite IH by (intros; eapply Hall; [by right | done..]).
  rewrite app_nil_r.
  assert (forall block, block ∈ page_blocks page ->
            match block_lines block with
            | None => []
            | Some lines =>
                flat_map (fun line => map span_of_raw (line_spans line)) lines
            end = []) as Hblock.
  { intros block Hb. destruct (block_lines block) as [lines|] eqn:E; [|done].
    assert (forall line, line ∈ lines -> line_spans line = []) as Hl
      by (intros; eapply Hall; [by left | done..]).
    clear E. induction lines as [|line lines IHl]; simpl; [done|].
    rewrite (Hl line) by (by left). simpl. apply IHl. intros. apply Hl. by right. }
  induction (page_blocks page) as [|block blocks IHb]; simpl; [done|].
  rewrite Hblock by (by left). simpl. apply IHb. intros. apply Hblock. by right.
Qed.

(** The constructor fails, with the [IndexError] of [spans[0]],
    exactly when no span is extracted; otherwise it builds a non-empty
    fragment list that holds the extracted spans in order. *)
Theorem init_spec (pages : list raw_page) :
  (extract_spans pages = [] /\ init pages = raise IndexError)
  \/ (extract_spans pages <> []
      /\ exists frs : list Fragment.t,
           init pages = ok frs /\ frs <> []
           /\ concat (map Fragment.spans frs) = extract_spans pages).
Proof.
  unfold init. destruct (extract_spans pages) as [|first rest].
  - left. split; [done|]. unfold convert_to_fragments. by rewrite py_index_nil.
  - right. split; [done|].
    destruct (convert_to_fragments_cons first rest) as (frs & Hfrs & Hc & _).
    exists frs. split; [done|]. split; [|done]. by intros ->.
Qed.

(** A document whose blocks have no lines, or only lines without
    spans (an image-only document), cannot be constructed: the
    constructor raises [IndexError]. *)
Theorem init_without_spans (pages : list raw_page) :
  (forall (page : raw_page) (block : raw_block) (lines : list raw_line)
          (line : raw_line),
     page ∈ pages -> block ∈ page_blocks page ->
     block_lines block = Some lines -> line ∈ lines -> line_spans line = []) ->
  init pages = raise IndexError.
Proof.
  intros Hall. unfold init. rewrite (extract_spans_nil pages Hall).
  unfold convert_to_fragments. by rewrite py_index_nil.
Qed.

Lemma init_without_spans_witness : init [image_page; image_page] = raise IndexError.
Proof.
  apply (init_without_spans [image_page; image_page]).
  intros page block lines line Hp Hb Hl.
  repeat (apply elem_of_cons in Hp as [->|Hp];
          [apply list_elem_of_singleton in Hb as ->; discriminate|]).
  by apply elem_of_nil in Hp.
Defined.

(** ** More on the fragment builder *)

Lemma convert_to_fragments_ok (spans : list Span.t) (frs : list Fragment.t) :
  convert_to_fragments spans = ok frs ->
  spans <> [] /\ frs <> []
  /\ concat (map Fragment.spans frs) = spans /\ fragments_ok frs.
Proof.
  destruct spans as [|first rest].
  - unfold convert_to_fragments. rewrite py_index_nil. discriminate.
  - destruct (convert_to_fragments_cons first rest) as (frs0 & -> & Hc & Hok).
    intros [= <-]. split; [done|]. split; [|done]. by intros ->.
Qed.

(** A built fragment list is not empty; each of its fragments has no
    override text, has the font size, family and colour of its last
    span, and each of its spans has the family and colour of the
    fragment and a font size equal to the fragment's. *)
Theorem convert_to_fragments_metadata (spans : list Span.t) (frs : list Fragment.t) :
  convert_to_fragments spans = ok frs ->
  frs <> []
  /\ forall (k : nat) (f : Fragment.t), frs !! k = Some f ->
       Fragment.text f = None
       /\ (exists p : Span.t,
             last (Fragment.spans f) = Some p
             /\ Fragment.font_size f = Span.font_size p
             /\ Fragment.font_family f = Span.font_family p
             /\ Fragment.text_color f = Span.text_color p)
       /\ forall s : Span.t, s ∈ Fragment.spans f ->
            Span.font_family s = Fragment.font_family f
            /\ Span.text_color s = Fragment.text_color f
            /\ (Span.font_size s = Fragment.font_size f
                \/ float_eq (Span.font_size s) (Fragment.font_size f) = true).
Proof.
  intros Hfrs. apply convert_to_fragments_ok in Hfrs as (_ & Hne & _ & [He _]).
  split; [done|]. intros k f Hf.
  destruct (He k f Hf) as [_ Ht Hu (p & Hp & Hs & Hfam & Hcol)].
  split; [done|]. split; [by exists p|].
  intros s Hs'. rewrite Hs, Hfam, Hcol.
  destruct (uniform_last _ p s Hu Hp Hs') as [->|[Hsp _]]; [by auto|].
  apply has_equal_metadata_spec in Hsp as (H1 & H2 & H3). by auto.
Qed.

Lemma convert_to_fragments_metadata_witness :
  [ Fragment.mk 0 [ Span.mk size12 "Arial" 0 "Hello";
                    Span.mk size12 "Arial" 0 " World" ]
                size12 "Arial" 0 None;
    Fragment.mk 1 [ Span.mk size14 "Arial" 0 "Title" ] size14 "Arial" 0 None ]
  <> []
  /\ forall (k : nat) (f : Fragment.t),
       [ Fragment.mk 0 [ Span.mk size12 "Arial" 0 "Hello";
                         Span.mk size12 "Arial" 0 " World" ]
                     size12 "Arial" 0 None;
         Fragment.mk 1 [ Span.mk size14 "Arial" 0 "Title" ] size14 "Arial" 0 None ]
       !! k = Some f ->
       Fragment.text f = None
       /\ (exists p : Span.t,
             last (Fragment.spans f) = Some p
             /\ Fragment.font_size f = Span.font_size p
             /\ Fragment.font_family f = Span.font_family p
             /\ Fragment.text_color f = Span.text_color p)
       /\ forall s : Span.t, s ∈ Fragment.spans f ->
            Span.font_family s = Fragment.font_family f
            /\ Span.text_color s = Fragment.text_color f
            /\ (Span.font_size s = Fragment.font_size f
                \/ float_eq (Span.font_size s) (Fragment.font_size f) = true).
Proof.
  apply (convert_to_fragments_metadata scenario_spans). reflexivity.
Defined.

Lemma builder_foldl_length (rest : list Span.t) :
  forall st : builder,
    length (b_fragments (foldl builder_step st rest))
    = (length (b_fragments st) + changes (b_previous st) rest)%nat.
Proof.
  induction rest as [|current rest IH]; intros st; simpl; [lia|].
  rewrite IH. unfold builder_step.
  destruct (Span.has_equal_metadata current (b_previous st)); simpl; [lia|].
  rewrite length_app. simpl. lia.
Qed.

Lemma convert_to_fragments_cons_length (first : Span.t) (rest : list Span.t) :
  exists frs : list Fragment.t,
    convert_to_fragments (first :: rest) = ok frs
    /\ length frs = S (changes first rest).
Proof.
  unfold convert_to_fragments. rewrite py_index_head, py_slice_tail. simpl.
  eexists. split; [reflexivity|].
  rewrite length_app, builder_foldl_length. simpl. lia.
Qed.

(** The builder makes one fragment, and one more for every span whose
    metadata differs from that of the span before it. *)
Theorem convert_to_fragments_length (first : Span.t) (rest : list Span.t) :
  exists frs : list Fragment.t,
    convert_to_fragments (first :: rest) = ok frs
    /\ length frs = S (changes first rest).
Proof. apply convert_to_fragments_cons_length. Qed.

(** When no span differs in metadata from the span before it, the
    builder makes the single fragment of index 0 that holds all the
    spans and has the metadata of the last one. *)
Theorem convert_to_fragments_single (first : Span.t) (rest : list Span.t) :
  changes first rest = 0%nat ->
  exists p : Span.t,
    last (first :: rest) = Some p
    /\ convert_to_fragments (first :: rest)
       = ok [ Fragment.mk 0 (first :: rest) (Span.font_size p)
                (Span.font_family p) (Span.text_color p) None ].
Proof.
  intros Hch.
  destruct (convert_to_fragments_cons_length first rest) as (frs & Hfrs & Hlen).
  rewrite Hch in Hlen.
  destruct (convert_to_fragments_ok _ _ Hfrs) as (_ & _ & Hc & [He _]).
  destruct frs as [|f [|g frs]]; simpl in Hlen; try lia.
  simpl in Hc. rewrite app_nil_r in Hc.
  destruct (He 0%nat f eq_refl) as [Hi Ht _ (p & Hp & Hs & Hfam & Hcol)].
  rewrite Hc in Hp. exists p. split; [done|]. rewrite Hfrs.
  destruct f as [ix sp fs ff tc tx]; simpl in *. by subst.
Qed.

Lemma convert_to_fragments_single_witness :
  exists p : Span.t,
    last [ Span.mk size12 "Arial" 0 "Hello"; Span.mk size12 "Arial" 0 " World" ]
    = Some p
    /\ convert_to_fragments
         [ Span.mk size12 "Arial" 0 "Hello"; Span.mk size12 "Arial" 0 " World" ]
       = ok [ Fragment.mk 0
                [ Span.mk size12 "Arial" 0 "Hello";
                  Span.mk size12 "Arial" 0 " World" ]
                (Span.font_size p) (Span.font_family p) (Span.text_color p) None ].
Proof.
  apply (convert_to_fragments_single (Span.mk size12 "Arial" 0 "Hello")
           [ Span.mk size12 "Arial" 0 " World" ]).
  reflexivity.
Defined.

(** ** The states of an analyzer *)

Lemma joined_text_nonempty (f : Fragment.t) : is_hyperlink f -> joined_text f <> "".
Proof.
  intros (_ & first & rest & Hs & Hm). unfold joined_text. rewrite Hs. simpl.
  destruct Hm as [[tail ->]|[tail ->]]; discriminate.
Qed.

Lemma merged_wf (p : nat) (f : Fragment.t) : fragment_wf p f -> fragment_wf p (merged f).
Proof.
  intros [Hi Hs Ht]. unfold merged.
  destruct (hyperlink_fragment f) eqn:E; [|done].
  split; simpl; [done | done |]. right.
  apply hyperlink_fragment_spec in E. split.
  - destruct E as (Hc & Hm). by split.
  - by rewrite to_string_empty.
Qed.

Lemma init_wf (pages : list raw_page) (frs : list Fragment.t) :
  init pages = ok frs -> analyzer_wf frs.
Proof.
  unfold init. intros Hfrs.
  apply convert_to_fragments_ok in Hfrs as (_ & Hne & _ & [He _]).
  split; [done|]. intros p f Hf.
  destruct (He p f Hf) as [Hi Ht _ (q & Hq & _)].
  split; [done | | by left]. intros Hnil. by rewrite Hnil in Hq.
Qed.

Lemma call_wf (op : operation) (frs : list Fragment.t) :
  analyzer_wf frs -> analyzer_wf (call op frs).2.
Proof.
  intros [Hne Hwf]. destruct op as [s e|i|pages|spans|s e|s e|t s e]; simpl;
    try by split.
  unfold join_hyperlinks.
  destruct (join_hyperlinks_loop (py_slice_refs (length frs) s e) frs)
    as [r frs'] eqn:Hloop.
  destruct (join_hyperlinks_loop_frame _ _ _ _ Hloop) as [Hlen Hfr].
  cbn [snd]. split.
  - intros ->. destruct frs; [done | discriminate].
  - intros p f' Hf'.
    destruct (lookup_lt_is_Some_2 frs p) as [f Hf].
    { rewrite <- Hlen. by eapply lookup_lt_Some. }
    destruct (proj2 (Hfr p) f Hf) as [H|H]; rewrite H in Hf'; injection Hf' as <-.
    + by apply Hwf.
    + by apply merged_wf, Hwf.
Qed.

Lemma reachable_analyzer_wf (frs : list Fragment.t) : reachable frs -> analyzer_wf frs.
Proof.
  induction 1 as [pages frs Hinit|op frs _ IH];
    [by eapply init_wf | by apply call_wf].
Qed.

Lemma link_fragments_reachable : reachable link_fragments.
Proof. by apply (reachable_init [image_page; link_page]). Qed.

Lemma uniform_fragments_reachable : reachable uniform_fragments.
Proof.
  apply (reachable_init
    [ mk_raw_page [ mk_raw_block (Some
        [ mk_raw_line [ mk_raw_span size12 "Arial" 0 "Hello" ];
          mk_raw_line [ mk_raw_span size12 "Arial" 255 " World" ] ]) ] ]).
  reflexivity.
Qed.

(** Whatever public operations were called on it, an analyzer holds a
    non-empty fragment list in which every fragment has its position
    as index, has at least one span, and has no override text or, as
    override text, the joined span texts of a hyperlink; in
    particular no override text is the empty string. *)
Theorem reachable_invariant (frs : list Fragment.t) :
  reachable frs ->
  analyzer_wf frs
  /\ forall f : Fragment.t, f ∈ frs -> Fragment.text f <> Some "".
Proof.
  intros Hr. apply reachable_analyzer_wf in Hr as Hwf. split; [done|].
  intros f Hf. apply list_elem_of_lookup in Hf as [p Hp].
  destruct (proj2 Hwf p f Hp) as [_ _ [->|[Hl ->]]]; [done|].
  intros [= H]. by apply (joined_text_nonempty f).
Qed.

Lemma reachable_invariant_witness :
  analyzer_wf (call (JoinHyperlinks 0 None) link_fragments).2
  /\ forall f : Fragment.t,
       f ∈ (call (JoinHyperlinks 0 None) link_fragments).2 ->
       Fragment.text f <> Some "".
Proof.
  apply (reachable_invariant (call (JoinHyperlinks 0 None) link_fragments).2).
  apply reachable_call, link_fragments_reachable.
Defined.

(** ** Reading fragments by index and by range *)

(** [l[i]] raises exactly outside [-len, len), and reads the position
    [i mod len] inside. *)
Lemma py_index_spec {A : Type} (l : list A) (i : Z) :
  (- Z.of_nat (length l) <= i < Z.of_nat (length l) ->
   exists a : A,
     py_index l i = ok a
     /\ l !! Z.to_nat (i mod Z.of_nat (length l)) = Some a)
  /\ (i < - Z.of_nat (length l) \/ Z.of_nat (length l) <= i ->
      py_index l i = raise IndexError).
Proof.
  unfold py_index, index_position. split.
  - intros Hi. destruct (Z.ltb_spec i 0) as [Hneg|Hpos].
    + replace (i mod Z.of_nat (length l)) with (i + Z.of_nat (length l))
        by (apply Z.mod_unique with (q := -1); lia).
      destruct (Z.ltb_spec (i + Z.of_nat (length l)) 0); [lia|].
      destruct (Z.leb_spec (Z.of_nat (length l)) (i + Z.of_nat (length l))); [lia|].
      simpl.
      destruct (lookup_lt_is_Some_2 l (Z.to_nat (i + Z.of_nat (length l))))
        as [a Ha]; [lia|].
      rewrite Ha. by exists a.
    + rewrite Z.mod_small by lia.
      destruct (Z.ltb_spec i 0); [lia|].
      destruct (Z.leb_spec (Z.of_nat (length l)) i); [lia|]. simpl.
      destruct (lookup_lt_is_Some_2 l (Z.to_nat i)) as [a Ha]; [lia|].
      rewrite Ha. by exists a.
  - intros Hi. destruct (Z.ltb_spec i 0) as [Hneg|Hpos].
    + destruct (Z.ltb_spec (i + Z.of_nat (length l)) 0); [done|lia].
    + destruct (Z.ltb_spec i 0); [lia|].
      destruct (Z.leb_spec (Z.of_nat (length l)) i); [done|lia].
Qed.

(** [get_fragment] raises [IndexError] exactly when the index is
    outside [-len, len). *)
Theorem get_fragment_error_iff (frs : list Fragment.t) (index : Z) :
  get_fragment frs index = raise IndexError
  <-> index < - Z.of_nat (length frs) \/ Z.of_nat (length frs) <= index.
Proof.
  unfold get_fragment. destruct (py_index_spec frs index) as [Hin Hout].
  split; [|done]. intros Herr.
  destruct (Z.lt_ge_cases index (- Z.of_nat (length frs))) as [|H1]; [by left|].
  destruct (Z.lt_ge_cases index (Z.of_nat (length frs))) as [H2|]; [|by right].
  destruct Hin as (a & Ha & _); [lia|]. rewrite Ha in Herr. discriminate.
Qed.

(** On an analyzer, [get_fragment] with an index in [-len, len)
    returns the fragment whose own index is [index mod len]: indices
    below zero count from the end. *)
Theorem get_fragment_index (frs : list Fragment.t) (index : Z) :
  reachable frs ->
  - Z.of_nat (length frs) <= index < Z.of_nat (length frs) ->
  exists f : Fragment.t,
    get_fragment frs index = ok f
    /\ Fragment.index f = index mod Z.of_nat (length frs).
Proof.
  intros Hr Hi. apply reachable_analyzer_wf in Hr as [_ Hwf].
  destruct (proj1 (py_index_spec frs index) Hi) as (f & Hf & Hp).
  exists f. split; [done|]. rewrite (wf_index _ _ (Hwf _ _ Hp)).
  pose proof (Z.mod_pos_bound index (Z.of_nat (length frs))). lia.
Qed.

Lemma get_fragment_index_witness :
  exists f : Fragment.t,
    get_fragment link_fragments (-1) = ok f
    /\ Fragment.index f = (-1) mod Z.of_nat (length link_fragments).
Proof.
  apply (get_fragment_index link_fragments (-1) link_fragments_reachable).
  simpl. lia.
Defined.

(** [get_fragments] never raises and returns a contiguous part of the
    fragment list. *)
Theorem get_fragments_contiguous (frs : list Fragment.t) (start : Z) (end_ : option Z) :
  exists before after : list Fragment.t,
    frs = before ++ get_fragments frs start end_ ++ after.
Proof.
  unfold get_fragments, py_slice.
  destruct (slice_bounds (length frs) start end_) as [lo hi].
  exists (take lo frs), (drop (hi - lo) (drop lo frs)).
  by rewrite take_drop, take_drop.
Qed.

(** Cutting the fragment list at any index, negative or beyond the
    end, loses nothing: the part before the cut followed by the part
    from the cut on is the whole list, which is also what the default
    arguments return. *)
Theorem get_fragments_cut (frs : list Fragment.t) (cut : Z) :
  get_fragments frs 0 (Some cut) ++ get_fragments frs cut None = frs
  /\ get_fragments frs 0 None = frs.
Proof.
  unfold get_fragments, py_slice, slice_bounds.
  change (adjust_index (Z.of_nat (length frs)) 0)
    with (Z.min 0 (Z.of_nat (length frs))).
  rewrite Z.min_l by lia. simpl. rewrite !Nat.sub_0_r, Nat2Z.id.
  split; [|apply firstn_all].
  set (c := Z.to_nat (adjust_index (Z.of_nat (length frs)) cut)).
  rewrite (take_ge (drop c frs)) by (rewrite length_drop; lia).
  apply take_drop.
Qed.

(** A range that starts at or after the end of the list is empty:
    [get_fragments] returns no fragment, where [get_fragment] would
    raise. *)
Theorem get_fragments_beyond (frs : list Fragment.t) (start : Z) (end_ : option Z) :
  Z.of_nat (length frs) <= start ->
  get_fragments frs start end_ = []
  /\ get_fragment frs start = raise IndexError.
Proof.
  intros Hs. split; [|unfold get_fragment; apply py_index_spec; by right].
  unfold get_fragments, py_slice.
  pose proof (slice_bounds_nonneg (length frs) start end_ ltac:(lia)) as Hlo.
  destruct (slice_bounds (length frs) start end_) as [lo hi]; simpl in Hlo.
  rewrite drop_ge by lia. by rewrite take_nil.
Qed.

Lemma get_fragments_beyond_witness :
  get_fragments link_fragments 2 None = []
  /\ get_fragment link_fragments 2 = raise IndexError.
Proof. apply (get_fragments_beyond link_fragments 2 None). simpl. lia. Defined.

(** ** More on the hyperlink merger *)

Lemma join_hyperlinks_pointwise (frs : list Fragment.t) (start : Z) (end_ : option Z) :
  analyzer_wf frs ->
  exists frs' : list Fragment.t,
    join_hyperlinks frs start end_ = (ok tt, frs')
    /\ length frs' = length frs
    /\ analyzer_wf frs'
    /\ forall (p : nat) (f : Fragment.t), frs !! p = Some f ->
         frs' !! p
         = Some (if bool_decide (p ∈ py_slice_refs (length frs) start end_)
                 then merged f else f).
Proof.
  intros Hwf. unfold join_hyperlinks.
  destruct (join_hyperlinks_loop_ok (py_slice_refs (length frs) start end_)
              (py_slice_refs_NoDup _ _ _) frs) as (frs' & Hloop & Hall).
  { intros p Hp. apply lookup_lt_is_Some.
    by apply py_slice_refs_spec, in_slice_lt in Hp. }
  { intros p f _ Hf. apply (wf_spans _ _ (proj2 Hwf p f Hf)). }
  destruct (join_hyperlinks_loop_frame _ _ _ _ Hloop) as [Hlen Hfr].
  exists frs'. split; [done|]. split; [done|]. split.
  - pose proof (call_wf (JoinHyperlinks start end_) frs Hwf) as H.
    simpl in H. unfold join_hyperlinks in H. by rewrite Hloop in H.
  - intros p f Hf. case_bool_decide as Hp.
    + by apply Hall.
    + by rewrite (proj1 (Hfr p) Hp).
Qed.

(** On an analyzer [join_hyperlinks] never raises, whatever the
    range. *)
Theorem join_hyperlinks_never_raises (frs : list Fragment.t) (start : Z)
    (end_ : option Z) :
  reachable frs ->
  exists frs' : list Fragment.t,
    join_hyperlinks frs start end_ = (ok tt, frs') /\ length frs' = length frs.
Proof.
  intros Hr. apply reachable_analyzer_wf in Hr.
  destruct (join_hyperlinks_pointwise frs start end_ Hr) as (frs' & H & Hlen & _).
  by exists frs'.
Qed.

Lemma join_hyperlinks_never_raises_witness :
  exists frs' : list Fragment.t,
    join_hyperlinks link_fragments (-5) (Some 7) = (ok tt, frs')
    /\ length frs' = length link_fragments.
Proof.
  apply (join_hyperlinks_never_raises link_fragments (-5) (Some 7)
           link_fragments_reachable).
Defined.

(** On an analyzer, merging the hyperlinks of two ranges gives the
    same fragments in either order. *)
Theorem join_hyperlinks_commute (frs : list Fragment.t) (start1 start2 : Z)
    (end1 end2 : option Z) :
  reachable frs ->
  (join_hyperlinks (join_hyperlinks frs start1 end1).2 start2 end2).2
  = (join_hyperlinks (join_hyperlinks frs start2 end2).2 start1 end1).2.
Proof.
  intros Hr. apply reachable_analyzer_wf in Hr as Hwf.
  destruct (join_hyperlinks_pointwise frs start1 end1 Hwf)
    as (frs1 & -> & Hlen1 & Hwf1 & H1).
  destruct (join_hyperlinks_pointwise frs start2 end2 Hwf)
    as (frs2 & -> & Hlen2 & Hwf2 & H2).
  cbn [snd].
  destruct (join_hyperlinks_pointwise frs1 start2 end2 Hwf1)
    as (frs12 & -> & Hlen12 & _ & H12).
  destruct (join_hyperlinks_pointwise frs2 start1 end1 Hwf2)
    as (frs21 & -> & Hlen21 & _ & H21).
  cbn [snd]. apply list_eq. intros p.
  destruct (frs !! p) as [f|] eqn:Hf.
  - rewrite (H12 p _ (H1 p f Hf)), (H21 p _ (H2 p f Hf)), Hlen1, Hlen2.
    repeat case_bool_decide; by rewrite ?merged_idempotent.
  - apply lookup_ge_None in Hf.
    rewrite !(proj2 (lookup_ge_None _ _)) by lia. done.
Qed.

Lemma join_hyperlinks_commute_witness :
  (join_hyperlinks (join_hyperlinks link_fragments 0 (Some 1)).2 1 None).2
  = (join_hyperlinks (join_hyperlinks link_fragments 1 None).2 0 (Some 1)).2.
Proof.
  apply (join_hyperlinks_commute link_fragments 0 1 (Some 1) None
           link_fragments_reachable).
Defined.

(** A range that starts at or after the end of the list holds no
    fragment: [join_hyperlinks] changes nothing and raises nothing,
    whatever the fragments are. *)
Theorem join_hyperlinks_beyond (frs : list Fragment.t) (start : Z) (end_ : option Z) :
  Z.of_nat (length frs) <= start ->
  join_hyperlinks frs start end_ = (ok tt, frs).
Proof.
  intros Hs. unfold join_hyperlinks, py_slice_refs.
  pose proof (slice_bounds_nonneg (length frs) start end_ ltac:(lia)) as Hlo.
  pose proof (slice_bounds_le (length frs) start end_) as [_ Hhi].
  destruct (slice_bounds (length frs) start end_) as [lo hi]; simpl in *.
  by replace (hi - lo)%nat with 0%nat by lia.
Qed.

Lemma join_hyperlinks_beyond_witness :
  join_hyperlinks link_fragments 2 (Some 9) = (ok tt, link_fragments).
Proof. apply (join_hyperlinks_beyond link_fragments 2 (Some 9)). simpl. lia. Defined.

Lemma join_hyperlinks_same_but_text (frs : list Fragment.t) (start : Z)
    (end_ : option Z) :
  Forall2 same_but_text frs (join_hyperlinks frs start end_).2.
Proof.
  unfold join_hyperlinks.
  destruct (join_hyperlinks_loop (py_slice_refs (length frs) start end_) frs)
    as [r frs'] eqn:Hloop.
  destruct (join_hyperlinks_loop_frame _ _ _ _ Hloop) as [Hlen Hfr].
  cbn [snd]. apply Forall2_same_length_lookup_2; [done|].
  intros p f f' Hf Hf'.
  destruct (proj2 (Hfr p) f Hf) as [H|H]; rewrite H in Hf'; injection Hf' as <-.
  - by repeat split.
  - apply merged_same_but_text.
Qed.

Lemma find_fragment_same_but_text (l l' : list Fragment.t) (text : string) :
  Forall2 same_but_text l l' -> find_fragment l text = find_fragment l' text.
Proof.
  induction 1 as [|f f' l l' (Hi & Hs & _) _ IH]; simpl; [done|].
  by rewrite Hi, Hs, IH.
Qed.

(** Merging hyperlinks does not change what the text locator finds:
    [get_index_by_text] returns the same pair before and after
    [join_hyperlinks], whatever the two ranges. *)
Theorem get_index_by_text_after_join (frs : list Fragment.t) (text : string)
    (start start' : Z) (end_ end' : option Z) :
  get_index_by_text (join_hyperlinks frs start' end').2 text start end_
  = get_index_by_text frs text start end_.
Proof.
  unfold get_index_by_text. symmetry.
  apply find_fragment_same_but_text, py_slice_Forall2,
    join_hyperlinks_same_but_text.
Qed.

(** ** More on the paragraph assembler *)

(** [get_paragraph] raises [IndexError] exactly when the start index
    is outside [-len, len); inside, it returns a paragraph. *)
Theorem get_paragraph_error_iff (frs : list Fragment.t) (start : Z) (end_ : option Z) :
  (get_paragraph frs start end_ = raise IndexError
   <-> start < - Z.of_nat (length frs) \/ Z.of_nat (length frs) <= start)
  /\ ((exists (paragraph : string) (break_index : Z),
         get_paragraph frs start end_ = ok (paragraph, break_index))
      <-> - Z.of_nat (length frs) <= start < Z.of_nat (length frs)).
Proof.
  unfold get_paragraph. destruct (py_index_spec frs start) as [Hin Hout].
  destruct (Z.lt_ge_cases start (- Z.of_nat (length frs))) as [H1|H1];
    [|destruct (Z.lt_ge_cases start (Z.of_nat (length frs))) as [H2|H2]].
  - rewrite Hout by (by left). simpl. split; split; try done; [by left| |lia].
    intros (? & ? & ?). discriminate.
  - destruct Hin as (f0 & -> & _); [lia|]. simpl.
    destruct (paragraph_loop _ f0 _ _) as [paragraph break_index].
    split; split; try done; [lia|]. intros _. by eexists _, _.
  - rewrite Hout by (by right). simpl. split; split; try done; [by right| |lia].
    intros (? & ? & ?). discriminate.
Qed.

(** A start index in [-len, -2] behaves as the index [start + len];
    the index [-1] is not covered: the fragments visited after the
    last one are then those from position 0 on. *)
Theorem get_paragraph_negative_start (frs : list Fragment.t) (start : Z)
    (end_ : option Z) :
  - Z.of_nat (length frs) <= start < -1 ->
  get_paragraph frs start end_
  = get_paragraph frs (start + Z.of_nat (length frs)) end_.
Proof.
  intros Hs. unfold get_paragraph.
  assert (py_index frs start = py_index frs (start + Z.of_nat (length frs)))
    as ->.
  { unfold py_index, index_position.
    destruct (Z.ltb_spec start 0); [|lia].
    destruct (Z.ltb_spec (start + Z.of_nat (length frs)) 0); [lia|].
    destruct (Z.ltb_spec (start + Z.of_nat (length frs)) 0); [lia|done]. }
  assert (py_slice frs (start + 1) end_
          = py_slice frs (start + Z.of_nat (length frs) + 1) end_) as ->; [|done].
  unfold py_slice, slice_bounds.
  replace (adjust_index (Z.of_nat (length frs)) (start + Z.of_nat (length frs) + 1))
    with (adjust_index (Z.of_nat (length frs)) (start + 1)); [done|].
  unfold adjust_index.
  destruct (Z.ltb_spec (start + 1) 0); [|lia].
  destruct (Z.ltb_spec (start + Z.of_nat (length frs) + 1) 0); lia.
Qed.

Lemma get_paragraph_negative_start_witness :
  get_paragraph paragraph_fragments (-3) None
  = get_paragraph paragraph_fragments (-3 + Z.of_nat (length paragraph_fragments)) None.
Proof.
  apply (get_paragraph_negative_start paragraph_fragments (-3) None). simpl. lia.
Defined.

Lemma paragraph_loop_break_same_but_text (l l' : list Fragment.t) :
  Forall2 same_but_text l l' ->
  forall (previous previous' : Fragment.t) (paragraph paragraph' : list string)
         (break_index : Z),
    Fragment.font_size previous' = Fragment.font_size previous ->
    (paragraph_loop l previous paragraph break_index).2
    = (paragraph_loop l' previous' paragraph' break_index).2.
Proof.
  induction 1 as [|x y l l' (Hi & _ & Hs & _) _ IH];
    intros previous previous' paragraph paragraph' break_index Hp; simpl; [done|].
  rewrite Hi, Hs, Hp.
  destruct (float_ne _ _); [done|]. by apply IH.
Qed.

(** Merging hyperlinks changes the text of paragraphs only: the break
    index (or the exception) of [get_paragraph] is the same before and
    after [join_hyperlinks], whatever the two ranges. *)
Theorem get_paragraph_break_after_join (frs : list Fragment.t) (start start' : Z)
    (end_ end' : option Z) :
  rmap snd (get_paragraph (join_hyperlinks frs start' end').2 start end_)
  = rmap snd (get_paragraph frs start end_).
Proof.
  pose proof (join_hyperlinks_same_but_text frs start' end') as H.
  unfold get_paragraph.
  destruct (py_index_Forall2 _ _ _ start H)
    as [(e & -> & ->)|(a & b & -> & -> & Hi & _ & Hs & _)]; [done|].
  simpl.
  pose proof (paragraph_loop_break_same_but_text _ _
                (py_slice_Forall2 _ _ _ (start + 1) end_ H) a b
                [text_or_to_string a] [text_or_to_string b] (Fragment.index a) Hs)
    as Hb.
  rewrite Hi.
  destruct (paragraph_loop _ a _ _) as [p1 b1], (paragraph_loop _ b _ _) as [p2 b2].
  simpl in *. by rewrite Hb.
Qed.

Lemma get_paragraph_alone (frs : list Fragment.t) (p : nat) (f : Fragment.t) :
  frs !! p = Some f ->
  get_paragraph frs (Z.of_nat p) (Some (Z.of_nat p + 1))
  = ok (text_or_to_string f, Fragment.index f).
Proof.
  intros Hf. apply lookup_lt_Some in Hf as Hlt. unfold get_paragraph.
  rewrite (py_index_nonneg frs (Z.of_nat p) f); [|lia|by rewrite Nat2Z.id].
  simpl.
  assert (py_slice frs (Z.of_nat p + 1) (Some (Z.of_nat p + 1)) = []) as ->.
  { unfold py_slice, slice_bounds. by rewrite Nat.sub_diag, take_0. }
  reflexivity.
Qed.

(** After [join_hyperlinks], a hyperlink fragment of the range read
    alone by [get_paragraph] gives the texts of its spans joined
    without separator (before the merge: joined with spaces). *)
Theorem get_paragraph_hyperlink (frs : list Fragment.t) (start : Z)
    (end_ : option Z) (p : nat) (f : Fragment.t) :
  reachable frs ->
  frs !! p = Some f -> in_slice (length frs) start end_ p -> is_hyperlink f ->
  get_paragraph (join_hyperlinks frs start end_).2
    (Z.of_nat p) (Some (Z.of_nat p + 1))
  = ok (joined_text f, Fragment.index f).
Proof.
  intros Hr Hf Hin Hlink. apply reachable_analyzer_wf in Hr.
  destruct (join_hyperlinks_pointwise frs start end_ Hr)
    as (frs' & -> & _ & _ & Hp).
  cbn [snd]. specialize (Hp p f Hf).
  rewrite bool_decide_true in Hp by (by apply py_slice_refs_spec).
  rewrite (get_paragraph_alone _ _ _ Hp).
  unfold merged. rewrite (proj2 (hyperlink_fragment_spec f) Hlink).
  unfold text_or_to_string. simpl. rewrite to_string_empty.
  destruct (String.eqb_spec (joined_text f) "") as [E|_]; [|done].
  by apply joined_text_nonempty in E.
Qed.

Lemma get_paragraph_hyperlink_witness :
  exists f : Fragment.t,
    link_fragments !! 0%nat = Some f
    /\ get_paragraph (join_hyperlinks link_fragments 0 None).2
         (Z.of_nat 0) (Some (Z.of_nat 0 + 1))
       = ok (joined_text f, Fragment.index f).
Proof.
  eexists. split; [reflexivity|].
  apply (get_paragraph_hyperlink link_fragments 0 None 0 _ link_fragments_reachable).
  - reflexivity.
  - unfold in_slice. vm_compute. lia.
  - split; [reflexivity|]. eexists _, _. split; [reflexivity|].
    right. by exists "exam".
Defined.

(** On an analyzer and from a start in [0, len), the break index is
    the start itself exactly when every fragment of the range
    continues the font size of the one before it; otherwise it is a
    position after the start and inside the list, that of a fragment
    whose font size differs from the fragment before it, so that
    assembly can go on from there. *)
Theorem get_paragraph_progress (frs : list Fragment.t) (start : Z) (end_ : option Z) :
  reachable frs ->
  0 <= start < Z.of_nat (length frs) ->
  exists (paragraph : string) (break_index : Z) (f0 : Fragment.t),
    frs !! Z.to_nat start = Some f0
    /\ get_paragraph frs start end_ = ok (paragraph, break_index)
    /\ ((break_index = start
         /\ size_chain (f0 :: get_fragments frs (start + 1) end_))
        \/ (start < break_index < Z.of_nat (length frs)
            /\ in_slice (length frs) (start + 1) end_ (Z.to_nat break_index)
            /\ exists g g' : Fragment.t,
                 frs !! Z.to_nat break_index = Some g
                 /\ frs !! (Z.to_nat break_index - 1)%nat = Some g'
                 /\ float_ne (Fragment.font_size g) (Fragment.font_size g')
                    = true)).
Proof.
  intros Hr Hstart. apply reachable_analyzer_wf in Hr as [_ Hwf].
  destruct (lookup_lt_is_Some_2 frs (Z.to_nat start)) as [f0 Hf0]; [lia|].
  destruct (get_paragraph_run frs start end_ f0 ltac:(lia) Hf0)
    as (k & paragraph & break_index & Hget & Hlen & Hin & Hchain & _ & Hstop).
  exists paragraph, break_index, f0. split; [done|]. split; [done|].
  destruct Hstop as [(g & g' & Hg_in & Hg & Hg' & Hne & ->)|[Hout ->]].
  - right. rewrite (wf_index _ _ (Hwf _ _ Hg)).
    apply lookup_lt_Some in Hg as Hlt. rewrite Nat2Z.id.
    split; [lia|]. split; [done|]. exists g, g'. split; [done|].
    split; [|done].
    by replace (Z.to_nat start + S k - 1)%nat with (Z.to_nat start + k)%nat by lia.
  - left. rewrite (wf_index _ _ (Hwf _ _ Hf0)). split; [lia|].
    destruct (py_slice_after frs start end_ ltac:(lia) ltac:(lia))
      as (n & Hslice & Hn & Hiff).
    unfold get_fragments. rewrite Hslice.
    assert (k = n) as ->.
    { rewrite Hiff in Hout. destruct k as [|k]; [lia|].
      specialize (Hin (S k) ltac:(lia)). rewrite Hiff in Hin. lia. }
    by rewrite (drop_S frs f0 _ Hf0) in Hchain.
Qed.

Lemma get_paragraph_progress_witness :
  exists (paragraph : string) (break_index : Z) (f0 : Fragment.t),
    uniform_fragments !! Z.to_nat 0 = Some f0
    /\ get_paragraph uniform_fragments 0 None = ok (paragraph, break_index)
    /\ ((break_index = 0
         /\ size_chain (f0 :: get_fragments uniform_fragments (0 + 1) None))
        \/ (0 < break_index < Z.of_nat (length uniform_fragments)
            /\ in_slice (length uniform_fragments) (0 + 1) None
                 (Z.to_nat break_index)
            /\ exists g g' : Fragment.t,
                 uniform_fragments !! Z.to_nat break_index = Some g
                 /\ uniform_fragments !! (Z.to_nat break_index - 1)%nat = Some g'
                 /\ float_ne (Fragment.font_size g) (Fragment.font_size g')
                    = true)).
Proof.
  apply (get_paragraph_progress uniform_fragments 0 None uniform_fragments_reachable).
  simpl. lia.
Defined.

(** ** More on the text locator *)

(** On an analyzer, a pair returned by [get_index_by_text] is the
    sentinel [(-1, -1)] or can be followed: its first component is an
    index that [get_fragment] accepts, and its second the place, in
    the spans of that fragment, of a span whose text is the query. *)
Theorem get_index_by_text_lookup (frs : list Fragment.t) (text : string)
    (start : Z) (end_ : option Z) (fi si : Z) :
  reachable frs ->
  get_index_by_text frs text start end_ = (fi, si) ->
  (fi = -1 /\ si = -1)
  \/ (0 <= fi < Z.of_nat (length frs) /\ 0 <= si
      /\ exists (f : Fragment.t) (span : Span.t),
           get_fragment frs fi = ok f
           /\ Fragment.spans f !! Z.to_nat si = Some span
           /\ Span.text span = text).
Proof.
  intros Hr. apply reachable_analyzer_wf in Hr as [_ Hwf].
  unfold get_index_by_text.
  destruct (find_fragment_spec (py_slice frs start end_) text)
    as [(q & f & r & Hq & Hfind & _ & ->)|[_ ->]]; intros [= <- <-]; [|by left].
  right. apply py_slice_lookup_Some in Hq as [_ Hf].
  apply find_span_Some in Hfind as (i & s & -> & Hs & Ht & _).
  rewrite (wf_index _ _ (Hwf _ _ Hf)).
  apply lookup_lt_Some in Hf as Hlt.
  split; [lia|]. split; [lia|]. exists f, s.
  split; [|split; [by rewrite Z.add_0_l, Nat2Z.id | done]].
  unfold get_fragment. apply py_index_nonneg; [lia | by rewrite Nat2Z.id].
Qed.

Lemma get_index_by_text_lookup_witness :
  (0 = -1 /\ 1 = -1)
  \/ (0 <= 0 < Z.of_nat (length link_fragments) /\ 0 <= 1
      /\ exists (f : Fragment.t) (span : Span.t),
           get_fragment link_fragments 0 = ok f
           /\ Fragment.spans f !! Z.to_nat 1 = Some span
           /\ Span.text span = "ple.com").
Proof.
  apply (get_index_by_text_lookup link_fragments "ple.com" 0 None 0 1
           link_fragments_reachable).
  reflexivity.
Defined.

(** ** Spans whose font size is a NaN *)

(** A span whose font size is a NaN never joins a run: in a built
    fragment list it is the only span of its fragment, even next to a
    span with the very same fields. *)
Theorem convert_to_fragments_nan (spans : list Span.t) (frs : list Fragment.t)
    (k : nat) (f : Fragment.t) (s : Span.t) :
  convert_to_fragments spans = ok frs ->
  frs !! k = Some f -> s ∈ Fragment.spans f -> Span.font_size s = S754_nan ->
  Fragment.spans f = [s].
Proof.
  intros Hfrs Hf Hs Hnan.
  apply convert_to_fragments_ok in Hfrs as (_ & _ & _ & [He _]).
  pose proof (ok_uniform _ _ (He k f Hf)) as Hu.
  apply list_elem_of_lookup in Hs as [i Hi].
  assert (forall (j : nat) (t : Span.t),
            Fragment.spans f !! j = Some t -> j = i) as Honly.
  { intros j t Hj. destruct (decide (j = i)) as [|Hne]; [done|]. exfalso.
    assert (Span.has_equal_metadata s t = true) as E by (apply (Hu i j); auto).
    apply has_equal_metadata_spec in E as (E & _). rewrite Hnan in E. discriminate. }
  destruct (Fragment.spans f) as [|a [|b rest]] eqn:Esp.
  - by rewrite lookup_nil in Hi.
  - pose proof (Honly 0%nat a eq_refl) as <-. simpl in Hi. congruence.
  - pose proof (Honly 0%nat a eq_refl) as H0.
    pose proof (Honly 1%nat b eq_refl) as H1. lia.
Qed.

Lemma convert_to_fragments_nan_witness :
  Fragment.spans (Fragment.mk 0 [ Span.mk S754_nan "Arial" 0 "a" ]
                    S754_nan "Arial" 0 None)
  = [ Span.mk S754_nan "Arial" 0 "a" ].
Proof.
  apply (convert_to_fragments_nan
           [ Span.mk S754_nan "Arial" 0 "a"; Span.mk S754_nan "Arial" 0 "a" ]
           [ Fragment.mk 0 [ Span.mk S754_nan "Arial" 0 "a" ] S754_nan "Arial" 0 None;
             Fragment.mk 1 [ Span.mk S754_nan "Arial" 0 "a" ] S754_nan "Arial" 0 None ]
           0 _ (Span.mk S754_nan "Arial" 0 "a")).
  - reflexivity.
  - reflexivity.
  - by left.
  - reflexivity.
Defined.
